(** * Request admission layer of the NestJS boilerplate

    A shallow embedding of
    - [BodySizeLimitMiddleware] (common/middleware/body-size-limit.middleware.ts),
    - [AllExceptionsFilter]     (common/filters/http-exception.filter.ts),
    - the throttling configuration of [AppModule] (app.module.ts),
    together with the properties stated about them.

    Conventions.  A JavaScript [number] is modelled by [Z]: byte counts,
    status codes, limits and millisecond clocks are integers in every call
    site of the embedded code.  A [Buffer] is a [list byte]; its [length]
    is the length of the list.  Event listeners are closures in the source;
    here they are first-order values of type [Listener] that record which
    closure was registered and what it captured. *)

From Stdlib Require Import ZArith Lia List String Ascii.
From Stdlib.Strings Require Import Byte.
From Stdlib Require Import DecimalString.
From stdpp Require Import gmap strings list.

Open Scope Z_scope.
Set Warnings "-register-all".

(* ================================================================== *)
(** * JavaScript values                                                *)
(* ================================================================== *)

Module Js.

(** The fragment of JavaScript values that reaches the embedded code:
    the payload of [HttpException.getResponse()] and the JSON bodies
    written to the client.  An object is an ordered list of fields. *)
Inductive JsValue : Type :=
| JsUndefined
| JsNull
| JsBool (b : bool)
| JsNumber (n : Z)
| JsString (s : string)
| JsArray (items : list JsValue)
| JsObject (fields : list (string * JsValue)).

(** Decimal rendering of an integral number, as [String(n)] and the
    [number + string] concatenation produce it (below 10^21 in absolute
    value, where JavaScript prints every digit). *)
Definition number_to_string (n : Z) : string :=
  NilZero.string_of_int (Z.to_int n).

(** Separator-joined rendering of a list, the loop of
    [Array.prototype.join]. *)
Definition join_with (elt : JsValue -> string) (sep : string)
  : list JsValue -> string :=
  fix go (l : list JsValue) : string :=
    match l with
    | [] => ""
    | [x] => elt x
    | x :: rest => elt x +:+ sep +:+ go rest
    end.

(** [String(v)].  Inside [join] the elements [undefined] and [null]
    render as the empty string. *)
Fixpoint js_String (v : JsValue) : string :=
  match v with
  | JsUndefined => "undefined"
  | JsNull => "null"
  | JsBool true => "true"
  | JsBool false => "false"
  | JsNumber n => number_to_string n
  | JsString s => s
  | JsArray items =>
      join_with (fun x => match x with
                          | JsUndefined | JsNull => ""
                          | _ => js_String x
                          end) "," items
  | JsObject _ => "[object Object]"
  end.

Definition join_elt (x : JsValue) : string :=
  match x with
  | JsUndefined | JsNull => ""
  | _ => js_String x
  end.

(** [arr.join(sep)] *)
Definition js_join (sep : string) (items : list JsValue) : string :=
  join_with join_elt sep items.

(** [obj[key]] on the field list of an object; [key in obj] is
    [js_get key obj <> None]. *)
Fixpoint js_get (key : string) (fields : list (string * JsValue))
  : option JsValue :=
  match fields with
  | [] => None
  | (k, v) :: rest => if String.eqb k key then Some v else js_get key rest
  end.

(** The base class [Error]: a message and the stack captured when the
    object was constructed. *)
Record ErrorObj : Type := { err_message : string; err_stack : string }.

(** Anything that can be thrown or handed to an error channel
    ([exception: unknown] in the filter).  [HttpException] is the
    framework class: an [Error] with a status and a response payload. *)
Inductive Thrown : Type :=
| HttpException (e : ErrorObj) (status : Z) (response : JsValue)
| PlainError (e : ErrorObj)
| NonError (v : JsValue).

Definition HTTP_PAYLOAD_TOO_LARGE : Z := 413.
Definition HTTP_TOO_MANY_REQUESTS : Z := 429.
Definition HTTP_INTERNAL_SERVER_ERROR : Z := 500.

(** [new PayloadTooLargeException(message)]: the framework subclass of
    [HttpException] with status 413, whose response payload is built
    from the message and the status description. *)
Definition PayloadTooLargeException (message stack : string) : Thrown :=
  HttpException {| err_message := message; err_stack := stack |}
    HTTP_PAYLOAD_TOO_LARGE
    (JsObject [("message", JsString message);
               ("error", JsString "Payload Too Large");
               ("statusCode", JsNumber HTTP_PAYLOAD_TOO_LARGE)]).

Definition is_HttpException (x : Thrown) : bool :=
  match x with HttpException _ _ _ => true | _ => false end.


End Js.
Import Js.

(* ================================================================== *)
(** * BodySizeLimitMiddleware                                          *)
(* ================================================================== *)

Module BodySize.

(** ** formatBytes *)

Definition sizes : list string := ["Bytes"; "KB"; "MB"; "GB"].

(** [Math.floor(Math.log(bytes) / Math.log(1024))] for a positive
    integer: the quotient of the two logarithms is taken exactly, so the
    result is the integer logarithm to base 1024 = 2^10.  The double
    quotient has this floor for counts below 1024^4 and for whole
    numbers of units; see [formatBytes_with] for the counts above. *)
Definition unit_index (bytes : Z) : Z := Z.log2 bytes / 10.

(** [Math.round(bytes / Math.pow(1024, i))] for a positive integer and
    [i >= 0]: the nearest integer, halves rounded up. *)
Definition round_div (bytes d : Z) : Z := (2 * bytes + d) / (2 * d).

(** [sizes[i]] inside a string concatenation: an index outside the
    array reads [undefined], which concatenates as "undefined". *)
Definition unit_name (i : Z) : string :=
  match sizes !! Z.to_nat i with
  | Some u => u
  | None => "undefined"
  end.

(** [formatBytes(bytes)].  A negative argument makes [Math.log] return
    NaN, which propagates through [floor], [pow], the division and
    [round], and indexes nothing. *)
Definition formatBytes (bytes : Z) : string :=
  if bytes =? 0 then "0 Bytes"
  else if bytes <? 0 then "NaN" +:+ " " +:+ "undefined"
  else
    let i := unit_index bytes in
    number_to_string (round_div bytes (1024 ^ i)) +:+ " " +:+ unit_name i.

(** [formatBytes(bytes)] with the index left to the runtime:
    [floor_log bytes] is the value of
    [Math.floor(Math.log(bytes) / Math.log(1024))] as computed in double
    precision.  The two logarithms are rounded, so far above 1024^4 the
    quotient can reach the next integer a few bytes early; [unit_index]
    is the instance in which it never does, which is how the quotient
    comes out for counts below 1024^4 and for whole numbers of units.
    [Math.pow(1024, i)] is a power of two and the division by it is
    exact. *)
Definition formatBytes_with (floor_log : Z -> Z) (bytes : Z) : string :=
  if bytes =? 0 then "0 Bytes"
  else if bytes <? 0 then "NaN" +:+ " " +:+ "undefined"
  else
    let i := floor_log bytes in
    number_to_string (round_div bytes (1024 ^ i)) +:+ " " +:+ unit_name i.

(** An index with the early step just below 1024^5: the quotient of the
    double logarithms is 5 for the three counts 2^50 - 3 .. 2^50 - 1,
    and the exact logarithm elsewhere. *)
Definition floor_log_early (bytes : Z) : Z :=
  if (2 ^ 50 - 3 <=? bytes) && (bytes <? 2 ^ 50) then 5 else unit_index bytes.

(** ** The request stream and its listeners *)

Inductive EventName : Type := on_data | on_end | on_error.

Inductive Event : Type :=
| EmitData (chunk : list byte)
| EmitEnd
| EmitError (err : Thrown).

Definition event_name (ev : Event) : EventName :=
  match ev with
  | EmitData _ => on_data
  | EmitEnd => on_end
  | EmitError _ => on_error
  end.

Definition EventName_eqb (a b : EventName) : bool :=
  match a, b with
  | on_data, on_data | on_end, on_end | on_error, on_error => true
  | _, _ => false
  end.

(** The three closures that [use] registers.  The data closure captures
    [limit]; all three share [receivedBytes], [req] and [next], which
    live in the [World] below. *)
Inductive Listener : Type :=
| DataListener (limit : Z)
| EndListener
| ErrorListener.

(** One request travelling through one call of [use]:
    the request object (method, flowing or paused, registered
    listeners), the local [receivedBytes] of that call, the calls made
    to [next] so far (oldest first, each with its argument), and the
    stack the runtime records in an exception constructed now. *)
Record World : Type := {
  req_method : string;
  req_paused : bool;
  req_listeners : list (EventName * Listener);
  receivedBytes : Z;
  next_calls : list (option Thrown);
  stack_here : string }.

Definition incoming (method stack : string) : World :=
  {| req_method := method; req_paused := false; req_listeners := [];
     receivedBytes := 0; next_calls := []; stack_here := stack |}.

Definition set_receivedBytes (n : Z) (w : World) : World :=
  {| req_method := req_method w; req_paused := req_paused w;
     req_listeners := req_listeners w; receivedBytes := n;
     next_calls := next_calls w; stack_here := stack_here w |}.

(** [req.pause()] *)
Definition pause (w : World) : World :=
  {| req_method := req_method w; req_paused := true;
     req_listeners := req_listeners w; receivedBytes := receivedBytes w;
     next_calls := next_calls w; stack_here := stack_here w |}.

(** [req.on(name, listener)] appends to the listeners already there. *)
Definition on (name : EventName) (l : Listener) (w : World) : World :=
  {| req_method := req_method w; req_paused := req_paused w;
     req_listeners := req_listeners w ++ [(name, l)];
     receivedBytes := receivedBytes w;
     next_calls := next_calls w; stack_here := stack_here w |}.

(** [next()] is [call_next None], [next(error)] is [call_next (Some error)]. *)
Definition call_next (arg : option Thrown) (w : World) : World :=
  {| req_method := req_method w; req_paused := req_paused w;
     req_listeners := req_listeners w; receivedBytes := receivedBytes w;
     next_calls := next_calls w ++ [arg]; stack_here := stack_here w |}.

Definition too_large_message (limit : Z) : string :=
  "Request body too large. Maximum size is " +:+ formatBytes limit.

(** The body of one listener.  The result is the world after the call
    and the exception the call raised, if any.  [emit] selects listeners
    by event name, so the last case is never reached from it. *)
Definition call_listener (l : Listener) (ev : Event) (w : World)
  : World * option Thrown :=
  match l, ev with
  | DataListener limit, EmitData chunk =>
      let w1 := set_receivedBytes (receivedBytes w + Z.of_nat (length chunk)) w in
      if limit <? receivedBytes w1
      then (pause w1,
            Some (PayloadTooLargeException (too_large_message limit) (stack_here w1)))
      else (w1, None)
  | EndListener, EmitEnd => (call_next None w, None)
  | ErrorListener, EmitError error => (call_next (Some error) w, None)
  | _, _ => (w, None)
  end.

Fixpoint listeners_for (name : EventName) (ls : list (EventName * Listener))
  : list Listener :=
  match ls with
  | [] => []
  | (n, l) :: rest =>
      if EventName_eqb n name then l :: listeners_for name rest
      else listeners_for name rest
  end.

(** Listeners run in registration order; an exception leaves the loop. *)
Fixpoint call_all (ls : list Listener) (ev : Event) (w : World)
  : World * option Thrown :=
  match ls with
  | [] => (w, None)
  | l :: rest =>
      match call_listener l ev w with
      | (w', Some exc) => (w', Some exc)
      | (w', None) => call_all rest ev w'
      end
  end.

(** [req.emit(...)] of an [EventEmitter]: synchronous, and an ['error']
    event nobody listens to is thrown. *)
Definition emit (ev : Event) (w : World) : World * option Thrown :=
  match listeners_for (event_name ev) (req_listeners w), ev with
  | [], EmitError err => (w, Some err)
  | ls, _ => call_all ls ev w
  end.

(** The transport feeding the stream in wire order.  An exception that
    escapes [emit] ends the delivery, and a paused stream hands out no
    further ['data'] or ['end']. *)
Fixpoint deliver (evs : list Event) (w : World) : World * option Thrown :=
  match evs with
  | [] => (w, None)
  | ev :: rest =>
      let withheld :=
        req_paused w && match ev with EmitError _ => false | _ => true end in
      if withheld then (w, None)
      else match emit ev w with
           | (w', Some exc) => (w', Some exc)
           | (w', None) => deliver rest w'
           end
  end.

(** ** The middleware *)

Record BodySizeLimitMiddleware : Type := { maxSize : option Z }.

Definition defaultLimit : Z := 10 * 1024 * 1024.

(** [this.maxSize || this.defaultLimit]: an absent [maxSize] and the
    falsy number 0 both select the default. *)
Definition effective_limit (this : BodySizeLimitMiddleware) : Z :=
  match maxSize this with
  | Some n => if n =? 0 then defaultLimit else n
  | None => defaultLimit
  end.

Definition bodyless_method (m : string) : bool :=
  String.eqb m "GET" || String.eqb m "HEAD" || String.eqb m "DELETE".

(** [use(req, res, next)] *)
Definition use (this : BodySizeLimitMiddleware) (w : World) : World :=
  let limit := effective_limit this in
  let w := set_receivedBytes 0 w in
  let w := on on_data (DataListener limit) w in
  let w := on on_end EndListener w in
  let w := on on_error ErrorListener w in
  if bodyless_method (req_method w) then call_next None w else w.


(** The listeners [use] leaves on a request that had none. *)
Definition attached (L : Z) (w : World) : Prop :=
  req_listeners w =
    [(on_data, DataListener L); (on_end, EndListener); (on_error, ErrorListener)].


(** ** Reading a delivery *)

(** The argument each ['end'] or ['error'] event makes the guard pass
    to [next]; ['data'] events pass nothing. *)
Fixpoint forwarded (evs : list Event) : list (option Thrown) :=
  match evs with
  | [] => []
  | EmitData _ :: rest => forwarded rest
  | EmitEnd :: rest => None :: forwarded rest
  | EmitError err :: rest => Some err :: forwarded rest
  end.

(** The bytes carried by the ['data'] events of a delivery. *)
Fixpoint data_bytes (evs : list Event) : Z :=
  match evs with
  | [] => 0
  | EmitData chunk :: rest => Z.of_nat (length chunk) + data_bytes rest
  | _ :: rest => data_bytes rest
  end.

End BodySize.

(* ================================================================== *)
(** * AllExceptionsFilter                                              *)
(* ================================================================== *)

Module Filter.

Record HttpRequest : Type := { url : string; method : string }.

(** What [response.status(status).json(errorResponse)] sends. *)
Record HttpResponse : Type := {
  res_status : Z;
  res_body : list (string * JsValue) }.

(** One call of [logger.error(message, trace)]. *)
Record LogEntry : Type := { log_message : string; log_trace : string }.

Definition exception_status (exception : Thrown) : Z :=
  match exception with
  | HttpException _ status _ => status
  | _ => HTTP_INTERNAL_SERVER_ERROR
  end.

Definition exception_response (exception : Thrown) : JsValue :=
  match exception with
  | HttpException _ _ response => response
  | _ => JsString "Internal server error"
  end.

(** The three-way extraction of [message].  Arrays and [null] have
    [typeof] "object" but carry no ['message'] key. *)
Definition extract_message (exceptionResponse : JsValue) : string :=
  match exceptionResponse with
  | JsString s => s
  | JsObject fields =>
      match js_get "message" fields with
      | Some (JsArray items) => js_join ", " items
      | Some msg => js_String msg
      | None => "Internal server error"
      end
  | _ => "Internal server error"
  end.

(** The conditional spread of the ['error'] key. *)
Definition error_field (exceptionResponse : JsValue)
  : list (string * JsValue) :=
  match exceptionResponse with
  | JsObject fields =>
      match js_get "error" fields with
      | Some e => [("error", e)]
      | None => []
      end
  | _ => []
  end.

(** [exception instanceof Error ? exception.stack : 'Unknown error'] *)
Definition logged_trace (exception : Thrown) : string :=
  match exception with
  | HttpException e _ _ | PlainError e => err_stack e
  | NonError _ => "Unknown error"
  end.

(** [catch(exception, host)]; [timestamp] is the value of
    [new Date().toISOString()] at the call. *)
Definition catch (exception : Thrown) (request : HttpRequest)
    (timestamp : string) : HttpResponse * LogEntry :=
  let status := exception_status exception in
  let exceptionResponse := exception_response exception in
  let message := extract_message exceptionResponse in
  let errorResponse :=
    [("statusCode", JsNumber status);
     ("timestamp", JsString timestamp);
     ("path", JsString (url request));
     ("method", JsString (method request));
     ("message", JsString message)] ++ error_field exceptionResponse in
  ({| res_status := status; res_body := errorResponse |},
   {| log_message := method request +:+ " " +:+ url request;
      log_trace := logged_trace exception |}).

(** The same exception with another recorded stack. *)
Definition with_stack (stack : string) (exception : Thrown) : Thrown :=
  match exception with
  | HttpException e status response =>
      HttpException {| err_message := err_message e; err_stack := stack |}
        status response
  | PlainError e =>
      PlainError {| err_message := err_message e; err_stack := stack |}
  | NonError v => NonError v
  end.

(** Modelled from the spec: the framework's request pipeline, which is
    not part of the repository.  Guards run in order before the business
    handler; the first rejection short-circuits the pipeline and is
    turned into the response by the global filter ([APP_FILTER] in
    [AppModule]); an exception of the handler takes the same way.  The
    boolean says whether the handler was invoked. *)
Definition Guard : Type := HttpRequest -> option Thrown.

Fixpoint first_rejection (guards : list Guard) (request : HttpRequest)
  : option Thrown :=
  match guards with
  | [] => None
  | g :: rest =>
      match g request with
      | Some exc => Some exc
      | None => first_rejection rest request
      end
  end.

Definition pipeline (guards : list Guard)
    (handler : HttpRequest -> Thrown + HttpResponse)
    (request : HttpRequest) (timestamp : string) : bool * HttpResponse :=
  match first_rejection guards request with
  | Some exc => (false, fst (catch exc request timestamp))
  | None =>
      match handler request with
      | inl exc => (true, fst (catch exc request timestamp))
      | inr response => (true, response)
      end
  end.

End Filter.

(* ================================================================== *)
(** * Rate limiter                                                     *)
(* ================================================================== *)

Module Throttle.

(** [AppModule] reads the two options from the configuration and hands
    them to the throttler library; [ThrottlerGuard] is the global guard. *)
Record ThrottlerOptions : Type := { ttl : Z; limit : Z }.

(** [Number(configService.get('THROTTLE_TTL'))] and
    [Number(configService.get('THROTTLE_LIMIT'))], with the defaults of
    the validation schema for keys the environment leaves out. *)
Definition forRootAsync (config : gmap string Z) : ThrottlerOptions :=
  {| ttl := default 60000 (config !! "THROTTLE_TTL");
     limit := default 10 (config !! "THROTTLE_LIMIT") |}.

Record WindowCounter : Type := { count : Z; windowStart : Z }.

Inductive AdmissionDecision : Type :=
| Admit
| RejectTooManyRequests (retryAfterSeconds : Z)
| RejectPayloadTooLarge (limitDescription : string).

(** The least integer not below [a / b], for [b > 0]. *)
Definition ceil_div (a b : Z) : Z := - ((- a) / b).

(** Modelled from the spec: the admission step of the throttler guard,
    whose code belongs to the rate-limiter library and is absent from
    the repository.  Look up or create the identity's counter; if
    [now - windowStart >= ttl] reset [count = 0, windowStart = now];
    increment [count]; if [count > limit] reject with
    [retryAfterSeconds = ceil((windowStart + ttl - now) / 1000)],
    otherwise admit.  Times are in milliseconds. *)
Definition throttle (opts : ThrottlerOptions) (identity : string) (now : Z)
    (store : gmap string WindowCounter)
  : gmap string WindowCounter * AdmissionDecision :=
  let found := default {| count := 0; windowStart := now |} (store !! identity) in
  let current :=
    if ttl opts <=? now - windowStart found
    then {| count := 0; windowStart := now |}
    else found in
  let updated :=
    {| count := count current + 1; windowStart := windowStart current |} in
  (<[identity := updated]> store,
   if limit opts <? count updated
   then RejectTooManyRequests
          (ceil_div (windowStart updated + ttl opts - now) 1000)
   else Admit).

(** A run of the guard over requests [(identity, arrival time)] in
    arrival order; the decisions come out in the same order. *)
Fixpoint run (opts : ThrottlerOptions) (requests : list (string * Z))
    (store : gmap string WindowCounter)
  : gmap string WindowCounter * list (string * AdmissionDecision) :=
  match requests with
  | [] => (store, [])
  | (identity, now) :: rest =>
      let '(store1, d) := throttle opts identity now store in
      let '(store2, ds) := run opts rest store1 in
      (store2, (identity, d) :: ds)
  end.

(** Modelled from the spec: the status of the terminal response of
    each decision (429 Too Many Requests, 413 Payload Too Large); an
    admitted request continues to the handler. *)
Definition status_of (d : AdmissionDecision) : option Z :=
  match d with
  | Admit => None
  | RejectTooManyRequests _ => Some HTTP_TOO_MANY_REQUESTS
  | RejectPayloadTooLarge _ => Some HTTP_PAYLOAD_TOO_LARGE
  end.

(** The decisions taken for one identity. *)
Fixpoint decisions_of (identity : string)
    (ds : list (string * AdmissionDecision)) : list AdmissionDecision :=
  match ds with
  | [] => []
  | (i, d) :: rest =>
      if String.eqb i identity then d :: decisions_of identity rest
      else decisions_of identity rest
  end.

(** The requests of a trace that do not come from [identity]. *)
Fixpoint without (identity : string) (requests : list (string * Z))
  : list (string * Z) :=
  match requests with
  | [] => []
  | (i, t) :: rest =>
      if String.eqb i identity then without identity rest
      else (i, t) :: without identity rest
  end.

(** The window in which the identity's next request at [now] starts a
    fresh count: it has no counter yet, or its window has run out. *)
Definition starts_window (opts : ThrottlerOptions) (identity : string)
    (now : Z) (store : gmap string WindowCounter) : Prop :=
  match store !! identity with
  | None => True
  | Some wc => ttl opts <= now - windowStart wc
  end.

(** The decision the claim expects for the request number [i] (from 0)
    of a window that started at [start], arriving at [now]. *)
Definition expected (opts : ThrottlerOptions) (start : Z) (i : nat) (now : Z)
  : AdmissionDecision :=
  if Z.of_nat i <? limit opts then Admit
  else RejectTooManyRequests (ceil_div (start + ttl opts - now) 1000).

(** The decisions expected for the requests of one window, numbered
    from [i]. *)
Fixpoint expected_from (opts : ThrottlerOptions) (start : Z) (i : nat)
    (times : list Z) : list AdmissionDecision :=
  match times with
  | [] => []
  | t :: rest => expected opts start i t :: expected_from opts start (S i) rest
  end.

(** The arrival times of the requests of one identity in a trace. *)
Fixpoint times_of (identity : string) (requests : list (string * Z))
  : list Z :=
  match requests with
  | [] => []
  | (i, t) :: rest =>
      if String.eqb i identity then t :: times_of identity rest
      else times_of identity rest
  end.

(** The requests of one identity arriving at the given times. *)
Definition arrivals (identity : string) (times : list Z) : list (string * Z) :=
  map (fun t => (identity, t)) times.

End Throttle.

(* ================================================================== *)
(** * Strings                                                          *)
(* ================================================================== *)

Module Str.

(** [s.split(sep)] for a separator of one character: never empty, and
    the empty string splits into one empty piece. *)
Fixpoint split_on (sep : ascii) (s : string) : list string :=
  match s with
  | EmptyString => [EmptyString]
  | String c rest =>
      if Ascii.eqb c sep then EmptyString :: split_on sep rest
      else match split_on sep rest with
           | [] => [String c EmptyString]
           | piece :: pieces => String c piece :: pieces
           end
  end.

(** [pieces.join(sep)] on strings. *)
Definition join (sep : ascii) (pieces : list string) : string :=
  String.concat (String sep EmptyString) pieces.

(** [s.startsWith(p)] *)
Definition startsWith (s p : string) : bool := String.prefix p s.

(** [s.endsWith(p)] *)
Definition endsWith (s p : string) : bool :=
  (String.length p <=? String.length s)%nat &&
  String.eqb (String.substring (String.length s - String.length p)
                               (String.length p) s) p.

(** Whether the character occurs in the string. *)
Fixpoint contains (c : ascii) (s : string) : bool :=
  match s with
  | EmptyString => false
  | String d rest => Ascii.eqb d c || contains c rest
  end.

Definition newline : ascii := "010"%char.
Definition space : ascii := " "%char.

End Str.

(* ================================================================== *)
(** * prisma/merge.ts                                                  *)
(* ================================================================== *)

Module Merge.
Import Str.

(** What the script sees of the partials directory: the entry names
    ([fs.readdirSync]) and the content of each entry
    ([fs.readFileSync], by entry name). *)
Record Partials : Type := {
  readdirSync : list string;
  readFileSync : string -> string }.

(** The variables the [forEach] callback closes over. *)
Record MergeState : Type := {
  mergedContent : string;
  hasGenerator : bool;
  hasDatasource : bool }.

Section Builtins.

(** [String.prototype.trim] and the default [Array.prototype.sort] are
    taken from the runtime. *)
Variable trim : string -> string.
Variable sort : list string -> list string.

Definition is_generator (line : string) : bool :=
  startsWith (trim line) "generator".

Definition is_datasource (line : string) : bool :=
  startsWith (trim line) "datasource".

(** The callback of [lines.filter]: the answer for one line and the
    flags it leaves. *)
Definition keep_line (line : string) (flags : bool * bool)
  : bool * (bool * bool) :=
  let '(hasGen, hasDs) := flags in
  if is_generator line && hasGen then (false, (hasGen, hasDs))
  else if is_datasource line && hasDs then (false, (hasGen, hasDs))
  else (true, (if is_generator line then true else hasGen,
               if is_datasource line then true else hasDs)).

(** [lines.filter(...)] with the flags threaded through the calls. *)
Fixpoint filter_lines (lines : list string) (flags : bool * bool)
  : list string * (bool * bool) :=
  match lines with
  | [] => ([], flags)
  | line :: rest =>
      let '(keep, flags1) := keep_line line flags in
      let '(kept, flags2) := filter_lines rest flags1 in
      (if keep then line :: kept else kept, flags2)
  end.

Definition banner : string :=
  "// ==========================================" +:+ String newline "".

(** The body of [files.forEach]: the four [mergedContent += ...]. *)
Definition merge_file (dir : Partials) (st : MergeState) (file : string)
  : MergeState :=
  let content := readFileSync dir file in
  let lines := split_on newline content in
  let '(filteredLines, (hasGen, hasDs)) :=
    filter_lines lines (hasGenerator st, hasDatasource st) in
  let merged := mergedContent st in
  let merged := merged +:+ banner in
  let merged := merged +:+ ("// " +:+ file +:+ String newline "") in
  let merged := merged +:+ (banner +:+ String newline "") in
  let merged :=
    merged +:+ (join newline filteredLines +:+ String newline (String newline "")) in
  {| mergedContent := merged; hasGenerator := hasGen; hasDatasource := hasDs |}.

(** The three comment lines and the empty line that announce a file. *)
Definition header (file : string) : string :=
  banner +:+ ("// " +:+ file +:+ String newline "") +:+
  (banner +:+ String newline "").

(** What one file adds to [mergedContent]: its header and its kept
    lines, followed by an empty line. *)
Definition block (file : string) (filteredLines : list string) : string :=
  header file +:+
  (join newline filteredLines +:+ String newline (String newline "")).

(** The partial files in the order they are merged. *)
Definition partial_files (dir : Partials) : list string :=
  sort (List.filter (fun file => endsWith file ".prisma") (readdirSync dir)).

(** [mergeSchemas()]: the text written to the output file. *)
Definition mergeSchemas (dir : Partials) : string :=
  mergedContent
    (fold_left (merge_file dir) (partial_files dir)
       {| mergedContent := ""; hasGenerator := false; hasDatasource := false |}).

(** The lines kept of each file, in merge order. *)
Fixpoint kept_lines (dir : Partials) (files : list string) (flags : bool * bool)
  : list (list string) :=
  match files with
  | [] => []
  | file :: rest =>
      let '(kept, flags1) :=
        filter_lines (split_on newline (readFileSync dir file)) flags in
      kept :: kept_lines dir rest flags1
  end.

(** The blocks of the files, one after the other. *)
Fixpoint render (files : list string) (kept : list (list string)) : string :=
  match files, kept with
  | file :: files', lines :: kept' => block file lines +:+ render files' kept'
  | _, _ => ""
  end.

(** A line that opens neither a generator nor a datasource. *)
Definition plain_line (line : string) : bool :=
  negb (is_generator line) && negb (is_datasource line).

(** All lines read, in merge order. *)
Definition read_lines (dir : Partials) (files : list string) : list string :=
  concat (map (fun file => split_on newline (readFileSync dir file)) files).

End Builtins.

End Merge.

(* ================================================================== *)
(** * UserService: names                                               *)
(* ================================================================== *)

Module Users.
Import Str.

(** [x || ''] for [x : string | undefined]. *)
Definition or_empty (x : option string) : string :=
  match x with
  | Some s => s
  | None => ""
  end.

(** [name?.split(' ')[0] || ''] *)
Definition firstName_of (name : option string) : string :=
  or_empty (match name with
            | Some n => head (split_on space n)
            | None => None
            end).

(** [name?.split(' ').slice(1).join(' ') || ''] *)
Definition lastName_of (name : option string) : string :=
  or_empty (match name with
            | Some n => Some (join space (tail (split_on space n)))
            | None => None
            end).

(** The [name] of [toResponseDto]: [`${firstName} ${lastName}`.trim()],
    with [trim] taken from the runtime. *)
Definition response_name (trim : string -> string) (firstName lastName : string)
  : string :=
  trim (firstName +:+ String space "" +:+ lastName).

(** ** The service *)

(** The columns of a user the service reads or writes. *)
Record User : Type := {
  id : string;
  email : string;
  password : string;
  firstName : string;
  lastName : string;
  isActive : bool;
  createdAt : string;
  updatedAt : string }.

Record UserResponseDto : Type := {
  dto_id : string;
  dto_email : string;
  dto_name : string;
  dto_createdAt : string;
  dto_updatedAt : string }.


Record UpdateUserDto : Type := {
  update_email : option string;
  update_name : option string;
  update_password : option string }.

(** The [data] handed to [userModel.create]. *)
Record UserCreateInput : Type := {
  new_email : string;
  new_password : string;
  new_firstName : string;
  new_lastName : string }.

(** The [data] handed to [userModel.update]; an absent key is [None]. *)
Record UserUpdateInput : Type := {
  set_email : option string;
  set_firstName : option string;
  set_lastName : option string;
  set_password : option string;
  set_isActive : option bool }.

Definition no_change : UserUpdateInput :=
  {| set_email := None; set_firstName := None; set_lastName := None;
     set_password := None; set_isActive := None |}.

Definition HTTP_NOT_FOUND : Z := 404.
Definition HTTP_CONFLICT : Z := 409.

(** [new NotFoundException(message)] and [new ConflictException(message)]:
    the framework subclasses of [HttpException] with status 404 and 409. *)
Definition NotFoundException (message stack : string) : Thrown :=
  HttpException {| err_message := message; err_stack := stack |}
    HTTP_NOT_FOUND
    (JsObject [("message", JsString message);
               ("error", JsString "Not Found");
               ("statusCode", JsNumber HTTP_NOT_FOUND)]).

Definition ConflictException (message stack : string) : Thrown :=
  HttpException {| err_message := message; err_stack := stack |}
    HTTP_CONFLICT
    (JsObject [("message", JsString message);
               ("error", JsString "Conflict");
               ("statusCode", JsNumber HTTP_CONFLICT)]).

(** A string or [undefined] in a condition: absent and empty are falsy. *)
Definition truthy (x : option string) : bool :=
  match x with
  | Some s => negb (String.eqb s "")
  | None => false
  end.

Definition SALT_ROUNDS : Z := 10.

Section Service.

(** The database behind [UserModel] and the calls the model makes on
    it are taken from the ORM client; each call may reject.  So are
    [bcrypt.hash] (with the salt it draws), [trim], and the stack an
    exception constructed by the service records. *)
Variable DB : Type.
Variable findById : string -> DB -> (Thrown + option User) * DB.
Variable findByEmail : string -> DB -> (Thrown + option User) * DB.
Variable countByEmail : string -> DB -> (Thrown + Z) * DB.
Variable createUser : UserCreateInput -> DB -> (Thrown + User) * DB.
Variable updateUser : string -> UserUpdateInput -> DB -> (Thrown + User) * DB.
Variable deleteUser : string -> DB -> (Thrown + User) * DB.
Variable bcrypt_hash : string -> Z -> string.
Variable trim : string -> string.
Variable stack : string.

(** An [async] method: it runs on the database and either throws or
    returns. *)
Definition Async (A : Type) : Type := DB -> (Thrown + A) * DB.

Definition ret {A : Type} (a : A) : Async A := fun db => (inr a, db).

Definition throw {A : Type} (exc : Thrown) : Async A := fun db => (inl exc, db).

(** [const x = await c; k x] *)
Definition await {A B : Type} (c : Async A) (k : A -> Async B) : Async B :=
  fun db =>
    match c db with
    | (inl exc, db') => (inl exc, db')
    | (inr a, db') => k a db'
    end.

(** [UserModel.existsByEmail]: [count > 0]. *)
Definition existsByEmail (e : string) : Async bool :=
  await (countByEmail e) (fun count => ret (0 <? count)).

(** [UserModel.updatePassword] and [UserModel.softDelete]. *)
Definition model_updatePassword (i hashedPassword : string) : Async User :=
  updateUser i
    {| set_email := None; set_firstName := None; set_lastName := None;
       set_password := Some hashedPassword; set_isActive := None |}.

Definition model_softDelete (i : string) : Async User :=
  updateUser i
    {| set_email := None; set_firstName := None; set_lastName := None;
       set_password := None; set_isActive := Some false |}.

Definition toResponseDto (user : User) : UserResponseDto :=
  {| dto_id := id user;
     dto_email := email user;
     dto_name := response_name trim (firstName user) (lastName user);
     dto_createdAt := createdAt user;
     dto_updatedAt := updatedAt user |}.

Definition not_found (i : string) : Thrown :=
  NotFoundException ("User with ID " +:+ i +:+ " not found") stack.

Definition email_taken : Thrown :=
  ConflictException "User with this email already exists" stack.

Definition hashPassword (p : string) : Async string :=
  ret (bcrypt_hash p SALT_ROUNDS).

Definition findOne (i : string) : Async UserResponseDto :=
  await (findById i) (fun user =>
  match user with
  | None => throw (not_found i)
  | Some u => ret (toResponseDto u)
  end).

Definition service_findByEmail (e : string) : Async (option UserResponseDto) :=
  await (findByEmail e) (fun user =>
  match user with
  | None => ret None
  | Some u => ret (Some (toResponseDto u))
  end).


(** The three [if]s that fill [updateData]. *)
Definition with_email (dto : UpdateUserDto) (data : UserUpdateInput)
  : UserUpdateInput :=
  if truthy (update_email dto)
  then {| set_email := update_email dto; set_firstName := set_firstName data;
          set_lastName := set_lastName data; set_password := set_password data;
          set_isActive := set_isActive data |}
  else data.

Definition with_name (dto : UpdateUserDto) (data : UserUpdateInput)
  : UserUpdateInput :=
  if truthy (update_name dto)
  then {| set_email := set_email data;
          set_firstName := Some (firstName_of (update_name dto));
          set_lastName := Some (lastName_of (update_name dto));
          set_password := set_password data;
          set_isActive := set_isActive data |}
  else data.

Definition with_password (dto : UpdateUserDto) (data : UserUpdateInput)
  : Async UserUpdateInput :=
  if truthy (update_password dto)
  then await (hashPassword (or_empty (update_password dto))) (fun hashed =>
       ret {| set_email := set_email data; set_firstName := set_firstName data;
              set_lastName := set_lastName data; set_password := Some hashed;
              set_isActive := set_isActive data |})
  else ret data.

Definition update (i : string) (dto : UpdateUserDto) : Async UserResponseDto :=
  await (findById i) (fun existingUser =>
  match existingUser with
  | None => throw (not_found i)
  | Some existing =>
      let checked : Async unit :=
        if truthy (update_email dto) &&
           negb (String.eqb (or_empty (update_email dto)) (email existing))
        then await (existsByEmail (or_empty (update_email dto))) (fun emailExists =>
             if emailExists then throw email_taken else ret tt)
        else ret tt in
      await checked (fun _ =>
      await (with_password dto (with_name dto (with_email dto no_change)))
        (fun updateData =>
      await (updateUser i updateData) (fun user =>
      ret (toResponseDto user))))
  end).

Definition remove (i : string) : Async unit :=
  await (findById i) (fun existingUser =>
  match existingUser with
  | None => throw (not_found i)
  | Some _ => await (deleteUser i) (fun _ => ret tt)
  end).

Definition softRemove (i : string) : Async UserResponseDto :=
  await (findById i) (fun existingUser =>
  match existingUser with
  | None => throw (not_found i)
  | Some _ => await (model_softDelete i) (fun user => ret (toResponseDto user))
  end).

Definition updatePassword (i newPassword : string) : Async unit :=
  await (findById i) (fun existingUser =>
  match existingUser with
  | None => throw (not_found i)
  | Some _ =>
      await (hashPassword newPassword) (fun hashedPassword =>
      await (model_updatePassword i hashedPassword) (fun _ => ret tt))
  end).

End Service.

End Users.

(* ================================================================== *)
(** * Properties of formatBytes                                        *)
(* ================================================================== *)

Section FormatBytes.
Import BodySize.

Lemma pow1024 (i : Z) : 0 <= i -> 1024 ^ i = 2 ^ (10 * i).
Proof.
  intros Hi. change 1024 with (2 ^ 10). rewrite <- Z.pow_mul_r; lia.
Qed.

Lemma unit_index_nonneg (bytes : Z) : 0 <= unit_index bytes.
Proof.
  unfold unit_index. apply Z.div_pos; [apply Z.log2_nonneg | lia].
Qed.

(** [unit_index] is the floor of the base-1024 logarithm. *)
Lemma unit_index_floor_log (bytes : Z) :
  0 < bytes ->
  1024 ^ unit_index bytes <= bytes < 1024 ^ (unit_index bytes + 1).
Proof.
  intros Hpos.
  pose proof (unit_index_nonneg bytes) as Hi.
  pose proof (Z.log2_spec bytes Hpos) as [Hlo Hhi].
  pose proof (Z.log2_nonneg bytes) as Hl.
  unfold unit_index in *.
  set (l := Z.log2 bytes) in *.
  pose proof (Z.div_mod l 10 ltac:(lia)) as Hdm.
  pose proof (Z.mod_pos_bound l 10 ltac:(lia)) as Hm.
  rewrite !pow1024 by lia.
  split.
  - eapply Z.le_trans; [|exact Hlo].
    apply Z.pow_le_mono_r; lia.
  - eapply Z.lt_le_trans; [exact Hhi|].
    apply Z.pow_le_mono_r; lia.
Qed.

(** The index is the only one whose unit brackets the byte count. *)
Lemma floor_log_unique (bytes i j : Z) :
  0 <= i -> 0 <= j ->
  1024 ^ i <= bytes < 1024 ^ (i + 1) ->
  1024 ^ j <= bytes < 1024 ^ (j + 1) ->
  i = j.
Proof.
  intros Hi Hj [Hil Hiu] [Hjl Hju].
  destruct (Z.lt_trichotomy i j) as [Hlt | [Heq | Hgt]]; [|exact Heq|].
  - assert (1024 ^ (i + 1) <= 1024 ^ j) by (apply Z.pow_le_mono_r; lia). lia.
  - assert (1024 ^ (j + 1) <= 1024 ^ i) by (apply Z.pow_le_mono_r; lia). lia.
Qed.

(** [round_div] is the nearest integer to [bytes / d], halves up. *)
Lemma round_div_nearest (bytes d : Z) :
  0 < d ->
  2 * (round_div bytes d * d) <= 2 * bytes + d < 2 * (round_div bytes d * d) + 2 * d.
Proof.
  intros Hd. unfold round_div.
  pose proof (Z.div_mod (2 * bytes + d) (2 * d) ltac:(lia)) as Hdm.
  pose proof (Z.mod_pos_bound (2 * bytes + d) (2 * d) ltac:(lia)) as Hm.
  lia.
Qed.

Lemma unit_index_large (bytes : Z) :
  1024 ^ 4 <= bytes -> 4 <= unit_index bytes.
Proof.
  intros Hge. unfold unit_index.
  assert (Hl : 40 <= Z.log2 bytes).
  { change 40 with (Z.log2 (1024 ^ 4)). apply Z.log2_le_mono. exact Hge. }
  apply Z.div_le_lower_bound; lia.
Qed.

Lemma unit_index_small (bytes : Z) :
  0 < bytes -> bytes < 1024 ^ 4 -> unit_index bytes < 4.
Proof.
  intros Hpos Hlt.
  destruct (unit_index_floor_log bytes Hpos) as [Hlo _].
  destruct (Z.lt_ge_cases (unit_index bytes) 4) as [H | H]; [exact H|].
  assert (1024 ^ 4 <= 1024 ^ unit_index bytes) by (apply Z.pow_le_mono_r; lia).
  lia.
Qed.

Lemma formatBytes_pos (bytes : Z) :
  0 < bytes ->
  formatBytes bytes =
    number_to_string (round_div bytes (1024 ^ unit_index bytes))
      +:+ " " +:+ unit_name (unit_index bytes).
Proof.
  intros Hpos. unfold formatBytes.
  destruct (Z.eqb_spec bytes 0); [lia|].
  destruct (Z.ltb_spec bytes 0); [lia|]. reflexivity.
Qed.

(** C6 (amended). [formatBytes] sends 0 to "0 Bytes", 1024 to "1 KB" and
    10*1024*1024 to "10 MB"; for a positive byte count below 1024^4 it
    prints round(bytes / 1024^i) followed by the unit number i of
    Bytes/KB/MB/GB, where i = floor(log1024(bytes)) -- the largest i with
    1024^i <= bytes -- and the printed number is the integer nearest to
    bytes / 1024^i. *)
Theorem formatBytes_spec :
  formatBytes 0 = "0 Bytes" /\
  formatBytes 1024 = "1 KB" /\
  formatBytes (10 * 1024 * 1024) = "10 MB" /\
  forall bytes : Z, 0 < bytes < 1024 ^ 4 ->
    exists (i q : Z) (u : string),
      0 <= i /\
      1024 ^ i <= bytes < 1024 ^ (i + 1) /\
      (forall j, 0 <= j -> 1024 ^ j <= bytes -> j <= i) /\
      2 * (q * 1024 ^ i) <= 2 * bytes + 1024 ^ i < 2 * (q * 1024 ^ i) + 2 * 1024 ^ i /\
      sizes !! Z.to_nat i = Some u /\
      formatBytes bytes = number_to_string q +:+ " " +:+ u.
Proof.
  split; [reflexivity|]. split; [reflexivity|]. split; [reflexivity|].
  intros bytes [Hpos Hsmall].
  pose proof (unit_index_nonneg bytes) as Hi.
  pose proof (unit_index_floor_log bytes Hpos) as Hfl.
  pose proof (unit_index_small bytes Hpos Hsmall) as Hlt.
  assert (Hunit : sizes !! Z.to_nat (unit_index bytes) =
                    Some (unit_name (unit_index bytes))).
  { unfold unit_name.
    assert (Hcase : unit_index bytes = 0 \/ unit_index bytes = 1 \/
                    unit_index bytes = 2 \/ unit_index bytes = 3) by lia.
    destruct Hcase as [-> | [-> | [-> | ->]]]; reflexivity. }
  exists (unit_index bytes), (round_div bytes (1024 ^ unit_index bytes)),
         (unit_name (unit_index bytes)).
  split; [exact Hi|]. split; [exact Hfl|]. split.
  { intros j Hj Hle.
    destruct (Z.le_gt_cases j (unit_index bytes)) as [H | H]; [exact H|].
    assert (1024 ^ (unit_index bytes + 1) <= 1024 ^ j)
      by (apply Z.pow_le_mono_r; lia).
    lia. }
  split.
  { apply round_div_nearest. apply Z.pow_pos_nonneg; lia. }
  split; [exact Hunit|].
  apply formatBytes_pos; exact Hpos.
Qed.

Lemma formatBytes_spec_witness :
  formatBytes 1536 = "2 KB".
Proof.
  destruct formatBytes_spec as (_ & _ & _ & Hgen).
  destruct (Hgen 1536 ltac:(split; reflexivity))
    as (i & q & u & Hi & Hfl & _ & Hq & Hu & Hfmt).
  assert (i = 1) as ->.
  { apply (floor_log_unique 1536); [lia | lia | exact Hfl | vm_compute; split; [discriminate | reflexivity]]. }
  assert (q = 2) as -> by (change (1024 ^ 1) with 1024 in Hq; lia).
  injection Hu as <-.
  exact Hfmt.
Defined.

(** C6 as stated fails from 1024^4 on: 1024^4 bytes are printed with no
    unit of Bytes/KB/MB/GB, the index 4 reading past the end of the
    unit array. *)
Lemma formatBytes_tebibyte_has_no_unit :
  formatBytes (1024 ^ 4) = "1 undefined" /\
  sizes !! Z.to_nat (unit_index (1024 ^ 4)) = None /\
  forall u, In u sizes -> formatBytes (1024 ^ 4) <> "1 " +:+ u.
Proof.
  split; [reflexivity|]. split; [reflexivity|].
  intros u [<- | [<- | [<- | [<- | []]]]]; discriminate.
Qed.

Lemma unit_index_mono (a b : Z) :
  a <= b -> unit_index a <= unit_index b.
Proof.
  intros Hab. unfold unit_index.
  apply Z.div_le_mono; [lia|]. apply Z.log2_le_mono. exact Hab.
Qed.

(** The index with the early step is monotone as well. *)
Lemma floor_log_early_mono (a b : Z) :
  0 < a -> a <= b -> floor_log_early a <= floor_log_early b.
Proof.
  intros Ha Hab. unfold floor_log_early.
  change (2 ^ 50) with 1125899906842624.
  assert (Hlow : forall x, x < 1125899906842624 -> unit_index x <= 5).
  { intros x Hx. change 5 with (unit_index 1125899906842624).
    apply unit_index_mono. lia. }
  assert (Hhigh : forall x, 1125899906842624 <= x -> 5 <= unit_index x).
  { intros x Hx. change 5 with (unit_index 1125899906842624).
    apply unit_index_mono. exact Hx. }
  pose proof (unit_index_mono a b Hab) as Hmono.
  destruct (Z.leb_spec (1125899906842624 - 3) a) as [Ha1|Ha1];
    destruct (Z.ltb_spec a 1125899906842624) as [Ha2|Ha2];
    destruct (Z.leb_spec (1125899906842624 - 3) b) as [Hb1|Hb1];
    destruct (Z.ltb_spec b 1125899906842624) as [Hb2|Hb2];
    cbn [andb]; try lia.
  - apply Hhigh. exact Hb2.
  - apply Hlow. exact Ha2.
Qed.

End FormatBytes.

(* ================================================================== *)
(** * The unit array and the index the runtime computes                *)
(* ================================================================== *)

Section RuntimeIndex.
Import BodySize.

(** The index is whatever the runtime makes of
    [Math.floor(Math.log(bytes) / Math.log(1024))]; two facts about it
    are used: a larger count never gets a smaller index, and at 1024^4
    the quotient of the two logarithms is exactly 4. *)
Variable floor_log : Z -> Z.
Hypothesis floor_log_mono :
  forall a b : Z, 0 < a -> a <= b -> floor_log a <= floor_log b.
Hypothesis floor_log_tebi : floor_log (1024 ^ 4) = 4.

(** C10. For a byte count of at least 1024^4 the unit index computed by
    [formatBytes] is at least 4, outside the four-element unit array, and
    the unit part of the result is "undefined", none of the four named
    units; an index inside the array is only computed for byte counts
    below 1024^4. *)
Theorem formatBytes_unit_out_of_range (bytes : Z) :
  (1024 ^ 4 <= bytes ->
     4 <= floor_log bytes /\
     (Z.to_nat (floor_log bytes) >= length sizes)%nat /\
     sizes !! Z.to_nat (floor_log bytes) = None /\
     ~ In (unit_name (floor_log bytes)) sizes /\
     formatBytes_with floor_log bytes =
       number_to_string (round_div bytes (1024 ^ floor_log bytes))
         +:+ " " +:+ "undefined") /\
  (0 < bytes ->
   0 <= floor_log bytes < Z.of_nat (length sizes) ->
   bytes < 1024 ^ 4).
Proof.
  assert (Hbig : 1024 ^ 4 <= bytes -> 4 <= floor_log bytes).
  { intros Hge. rewrite <- floor_log_tebi.
    apply floor_log_mono; [reflexivity | exact Hge]. }
  split.
  - intros Hge. pose proof (Hbig Hge) as Hi.
    assert (Hnone : sizes !! Z.to_nat (floor_log bytes) = None)
      by (apply lookup_ge_None; simpl; lia).
    assert (Hname : unit_name (floor_log bytes) = "undefined")
      by (unfold unit_name; rewrite Hnone; reflexivity).
    split; [exact Hi|]. split; [simpl; lia|]. split; [exact Hnone|].
    split.
    + rewrite Hname. simpl. intros [H | [H | [H | [H | []]]]]; discriminate.
    + assert (Hpos : 0 < bytes).
      { apply Z.lt_le_trans with (1024 ^ 4); [reflexivity | exact Hge]. }
      unfold formatBytes_with.
      destruct (Z.eqb_spec bytes 0); [lia|].
      destruct (Z.ltb_spec bytes 0); [lia|].
      cbv zeta. rewrite Hname. reflexivity.
  - intros Hpos Hin.
    destruct (Z.lt_ge_cases bytes (1024 ^ 4)) as [H | H]; [exact H|].
    specialize (Hbig H). simpl in Hin. lia.
Qed.

End RuntimeIndex.

Lemma formatBytes_unit_out_of_range_witness :
  BodySize.formatBytes_with BodySize.floor_log_early (2 ^ 50 - 1) = "1 undefined" /\
  BodySize.formatBytes_with BodySize.unit_index (1024 ^ 4) = "1 undefined".
Proof.
  split.
  - destruct (formatBytes_unit_out_of_range BodySize.floor_log_early
                floor_log_early_mono ltac:(reflexivity) (2 ^ 50 - 1))
      as [Hbig _].
    destruct (Hbig ltac:(vm_compute; discriminate)) as (_ & _ & _ & _ & Hfmt).
    rewrite Hfmt. reflexivity.
  - destruct (formatBytes_unit_out_of_range BodySize.unit_index
                ltac:(intros a b _ Hab; apply unit_index_mono; exact Hab)
                ltac:(reflexivity) (1024 ^ 4))
      as [Hbig _].
    destruct (Hbig ltac:(vm_compute; discriminate)) as (_ & _ & _ & _ & Hfmt).
    rewrite Hfmt. reflexivity.
Defined.

(* ================================================================== *)
(** * Properties of the body-size guard                                *)
(* ================================================================== *)

Section BodySizeGuard.
Import BodySize.

Lemma use_incoming (this : BodySizeLimitMiddleware) (m st : string) :
  use this (incoming m st) =
    {| req_method := m; req_paused := false;
       req_listeners :=
         [(on_data, DataListener (effective_limit this));
          (on_end, EndListener); (on_error, ErrorListener)];
       receivedBytes := 0;
       next_calls := if bodyless_method m then [None] else [];
       stack_here := st |}.
Proof.
  unfold use, incoming. cbn. destruct (bodyless_method m); reflexivity.
Qed.

Lemma use_attached (this : BodySizeLimitMiddleware) (m st : string) :
  attached (effective_limit this) (use this (incoming m st)).
Proof. rewrite use_incoming. reflexivity. Qed.

Lemma call_listener_listeners (l : Listener) (ev : Event) (w : World) :
  req_listeners (fst (call_listener l ev w)) = req_listeners w.
Proof.
  destruct l, ev; cbn; try reflexivity.
  destruct (_ <? _); reflexivity.
Qed.

Lemma call_all_listeners (ls : list Listener) (ev : Event) (w : World) :
  req_listeners (fst (call_all ls ev w)) = req_listeners w.
Proof.
  revert w. induction ls as [|l ls IH]; intros w; cbn; [reflexivity|].
  pose proof (call_listener_listeners l ev w) as Hl.
  destruct (call_listener l ev w) as [w' [exc|]]; cbn in *; [exact Hl|].
  rewrite IH. exact Hl.
Qed.

Lemma emit_listeners (ev : Event) (w : World) :
  req_listeners (fst (emit ev w)) = req_listeners w.
Proof.
  unfold emit.
  destruct (listeners_for (event_name ev) (req_listeners w)) as [|l ls];
    destruct ev; cbn [fst]; try reflexivity; apply call_all_listeners.
Qed.

Lemma deliver_listeners (evs : list Event) (w : World) :
  req_listeners (fst (deliver evs w)) = req_listeners w.
Proof.
  revert w. induction evs as [|ev evs IH]; intros w; cbn; [reflexivity|].
  destruct (req_paused w && _); [reflexivity|].
  pose proof (emit_listeners ev w) as He.
  destruct (emit ev w) as [w' [exc|]]; cbn in *; [exact He|].
  rewrite IH. exact He.
Qed.

(** One ['data'] event on a request carrying the guard's listeners. *)
Lemma emit_data_attached (L : Z) (chunk : list byte) (w : World) :
  attached L w ->
  emit (EmitData chunk) w = call_listener (DataListener L) (EmitData chunk) w.
Proof.
  unfold attached, emit. intros ->. cbn.
  destruct (_ <? _); reflexivity.
Qed.

Lemma emit_end_attached (L : Z) (w : World) :
  attached L w -> emit EmitEnd w = (call_next None w, None).
Proof. unfold attached, emit. intros ->. reflexivity. Qed.

Lemma emit_error_attached (L : Z) (err : Thrown) (w : World) :
  attached L w -> emit (EmitError err) w = (call_next (Some err) w, None).
Proof. unfold attached, emit. intros ->. reflexivity. Qed.








Lemma effective_limit_configured (L : Z) :
  L <> 0 -> effective_limit {| maxSize := Some L |} = L.
Proof.
  intros HL. unfold effective_limit. cbn.
  destruct (Z.eqb_spec L 0); [contradiction | reflexivity].
Qed.






(** C7. Whatever the request stream has delivered before, and however
    many bytes are accumulated, an ['error'] event hands exactly the
    reported error to [next]; nothing is raised and nothing else in the
    request changes. *)
Theorem transport_error_forwarded
    (this : BodySizeLimitMiddleware) (m st : string)
    (before : list Event) (err : Thrown) :
  let w := fst (deliver before (use this (incoming m st))) in
  emit (EmitError err) w = (call_next (Some err) w, None) /\
  next_calls (fst (emit (EmitError err) w)) = next_calls w ++ [Some err] /\
  receivedBytes (fst (emit (EmitError err) w)) = receivedBytes w /\
  req_paused (fst (emit (EmitError err) w)) = req_paused w.
Proof.
  intros w.
  assert (Hatt : attached (effective_limit this) w).
  { unfold attached, w. rewrite deliver_listeners. apply use_attached. }
  rewrite (emit_error_attached _ err w Hatt). repeat split; reflexivity.
Qed.

(** C9. For a GET, HEAD or DELETE request [use] calls [next] once
    before it returns and has registered the 'data', 'end' and 'error'
    listeners all the same; a later ['end'] event calls [next] a second
    time. *)
Theorem bodyless_request_next_called_twice
    (this : BodySizeLimitMiddleware) (m st : string) :
  m = "GET" \/ m = "HEAD" \/ m = "DELETE" ->
  let w := use this (incoming m st) in
  next_calls w = [None] /\
  req_listeners w =
    [(on_data, DataListener (effective_limit this));
     (on_end, EndListener); (on_error, ErrorListener)] /\
  exists w',
    emit EmitEnd w = (w', None) /\
    next_calls w' = [None; None].
Proof.
  intros Hm w.
  assert (Hb : bodyless_method m = true)
    by (destruct Hm as [-> | [-> | ->]]; reflexivity).
  unfold w. rewrite use_incoming, Hb.
  split; [reflexivity|]. split; [reflexivity|].
  eexists. split; reflexivity.
Qed.

Lemma bodyless_request_next_called_twice_witness :
  exists w',
    emit EmitEnd (use {| maxSize := None |} (incoming "GET" "")) = (w', None) /\
    next_calls w' = [None; None].
Proof.
  destruct (bodyless_request_next_called_twice {| maxSize := None |} "GET" ""
              ltac:(left; reflexivity)) as (_ & _ & Hend).
  exact Hend.
Defined.

(** C4 fails on the code.  A GET request passes through [use] with the
    byte-counting listener attached: a 'data' event is counted against
    the limit and, above it, pauses the stream and raises
    PayloadTooLarge. *)
Theorem get_request_is_still_counted :
  let w := use {| maxSize := Some 10 |} (incoming "GET" "") in
  next_calls w = [None] /\
  listeners_for on_data (req_listeners w) = [DataListener 10] /\
  receivedBytes (fst (emit (EmitData (repeat x00 4)) w)) = 4 /\
  exists w',
    emit (EmitData (repeat x00 11)) w =
      (w', Some (PayloadTooLargeException (too_large_message 10) "")) /\
    receivedBytes w' = 11 /\
    req_paused w' = true.
Proof.
  cbv zeta. split; [reflexivity|]. split; [reflexivity|]. split; [reflexivity|].
  eexists. split; [reflexivity|]. split; reflexivity.
Qed.

End BodySizeGuard.

(* ================================================================== *)
(** * Properties of the exception filter                               *)
(* ================================================================== *)

Section ExceptionFilter.
Import Filter.

Lemma exception_response_with_stack (stack : string) (exception : Thrown) :
  exception_response (with_stack stack exception) = exception_response exception.
Proof. destruct exception; reflexivity. Qed.

Lemma exception_status_with_stack (stack : string) (exception : Thrown) :
  exception_status (with_stack stack exception) = exception_status exception.
Proof. destruct exception; reflexivity. Qed.

(** The response does not depend on the stack the exception recorded. *)
Lemma catch_ignores_stack (stack : string) (exception : Thrown)
    (request : HttpRequest) (timestamp : string) :
  fst (catch (with_stack stack exception) request timestamp) =
  fst (catch exception request timestamp).
Proof.
  unfold catch. cbn [fst].
  rewrite exception_response_with_stack, exception_status_with_stack.
  reflexivity.
Qed.

Lemma catch_body_fields (exception : Thrown) (request : HttpRequest)
    (timestamp : string) :
  exists extra,
    res_body (fst (catch exception request timestamp)) =
      [("statusCode", JsNumber (exception_status exception));
       ("timestamp", JsString timestamp);
       ("path", JsString (url request));
       ("method", JsString (method request));
       ("message", JsString (extract_message (exception_response exception)))]
      ++ extra /\
    (extra = [] \/ exists e, extra = [("error", e)]).
Proof.
  exists (error_field (exception_response exception)).
  split; [reflexivity|].
  unfold error_field.
  destruct (exception_response exception) as [| |b|n|s|items|fields]; auto.
  destruct (js_get "error" fields) as [e|]; eauto.
Qed.

(** C5. Whatever exception reaches the filter, the response is a JSON
    object with statusCode, timestamp, path, method and message; an
    HttpException answers with its own status (413 for the body-size
    rejection, with its designed message), any other exception with 500
    and the fixed message "Internal server error"; the response is the
    same whatever stack the exception carries; and when a guard rejects,
    the pipeline answers with that response without invoking the
    business handler. *)
Theorem filter_contract (exception : Thrown) (request : HttpRequest)
    (timestamp : string) :
  let r := fst (catch exception request timestamp) in
  (js_get "statusCode" (res_body r) = Some (JsNumber (res_status r)) /\
   js_get "timestamp" (res_body r) = Some (JsString timestamp) /\
   js_get "path" (res_body r) = Some (JsString (url request)) /\
   js_get "method" (res_body r) = Some (JsString (method request)) /\
   exists message, js_get "message" (res_body r) = Some (JsString message)) /\
  (forall e status response,
     exception = HttpException e status response -> res_status r = status) /\
  (forall message stack,
     exception = PayloadTooLargeException message stack ->
     res_status r = 413 /\
     js_get "message" (res_body r) = Some (JsString message)) /\
  (is_HttpException exception = false ->
     res_status r = 500 /\
     res_body r =
       [("statusCode", JsNumber 500);
        ("timestamp", JsString timestamp);
        ("path", JsString (url request));
        ("method", JsString (method request));
        ("message", JsString "Internal server error")]) /\
  (forall stack,
     fst (catch (with_stack stack exception) request timestamp) = r) /\
  (forall (guards : list Guard) handler,
     first_rejection guards request = Some exception ->
     pipeline guards handler request timestamp = (false, r)).
Proof.
  intros r. split; [|split; [|split; [|split; [|split]]]].
  - unfold r, catch. cbn. repeat split; eauto.
  - intros e status response ->. reflexivity.
  - intros message stack ->. split; reflexivity.
  - intros Hnot. destruct exception; [discriminate| |]; split; reflexivity.
  - intros stack. apply catch_ignores_stack.
  - intros guards handler Hrej. unfold pipeline. rewrite Hrej. reflexivity.
Qed.

Lemma filter_contract_witness :
  let request := {| url := "/api/users"; method := "POST" |} in
  let rejection := PayloadTooLargeException "Request body too large. Maximum size is 10 MB" "" in
  pipeline [fun _ => Some rejection] (fun _ => inr {| res_status := 201; res_body := [] |})
    request "2025-01-17T10:30:00.000Z"
  = (false,
     {| res_status := 413;
        res_body :=
          [("statusCode", JsNumber 413);
           ("timestamp", JsString "2025-01-17T10:30:00.000Z");
           ("path", JsString "/api/users");
           ("method", JsString "POST");
           ("message", JsString "Request body too large. Maximum size is 10 MB");
           ("error", JsString "Payload Too Large")] |}).
Proof.
  intros request rejection.
  destruct (filter_contract rejection request "2025-01-17T10:30:00.000Z")
    as (_ & _ & _ & _ & _ & Hpipe).
  rewrite (Hpipe [fun _ => Some rejection] _ ltac:(reflexivity)).
  reflexivity.
Defined.

End ExceptionFilter.

(* ================================================================== *)
(** * Properties of the rate limiter                                   *)
(* ================================================================== *)

Section RateLimiter.
Import Throttle.

(** Without throttling keys in the environment the guard is configured
    with the defaults of the validation schema. *)
Example forRootAsync_defaults :
  forRootAsync ∅ = {| ttl := 60000; limit := 10 |} /\
  forRootAsync (<["THROTTLE_LIMIT" := 5]> ∅) = {| ttl := 60000; limit := 5 |}.
Proof. split; vm_compute; reflexivity. Qed.

Lemma run_cons (opts : ThrottlerOptions) (identity : string) (now : Z)
    (rest : list (string * Z)) (store : gmap string WindowCounter) :
  run opts ((identity, now) :: rest) store =
    (fst (run opts rest (fst (throttle opts identity now store))),
     (identity, snd (throttle opts identity now store))
       :: snd (run opts rest (fst (throttle opts identity now store)))).
Proof.
  cbn [run].
  destruct (throttle opts identity now store) as [store1 d]. cbn [fst snd].
  destruct (run opts rest store1) as [store2 ds]. reflexivity.
Qed.

(** A request leaves the counters of every other identity alone. *)
Lemma throttle_other (opts : ThrottlerOptions) (i j : string) (now : Z)
    (store : gmap string WindowCounter) :
  i <> j -> fst (throttle opts i now store) !! j = store !! j.
Proof. intros Hne. unfold throttle. cbn [fst]. by rewrite lookup_insert_ne. Qed.

(** The decision and the new counter depend on the identity's own
    counter only. *)
Lemma throttle_local (opts : ThrottlerOptions) (i : string) (now : Z)
    (s1 s2 : gmap string WindowCounter) :
  s1 !! i = s2 !! i ->
  snd (throttle opts i now s1) = snd (throttle opts i now s2) /\
  fst (throttle opts i now s1) !! i = fst (throttle opts i now s2) !! i.
Proof.
  intros Heq. unfold throttle. cbn [fst snd].
  rewrite !lookup_insert_eq, Heq. split; reflexivity.
Qed.

Lemma noninterference_gen (opts : ThrottlerOptions) (a b : string)
    (requests : list (string * Z)) :
  a <> b ->
  forall s1 s2 : gmap string WindowCounter,
    s1 !! a = s2 !! a ->
    decisions_of a (snd (run opts requests s1)) =
      decisions_of a (snd (run opts (without b requests) s2)) /\
    fst (run opts requests s1) !! a =
      fst (run opts (without b requests) s2) !! a.
Proof.
  intros Hab. induction requests as [|[i t] rest IH]; intros s1 s2 Heq.
  - cbn. split; [reflexivity | exact Heq].
  - rewrite run_cons. cbn [without fst snd decisions_of].
    destruct (String.eqb_spec i b) as [-> | Hib].
    + destruct (String.eqb_spec b a) as [Hba | _]; [congruence|].
      apply IH. rewrite throttle_other by congruence. exact Heq.
    + rewrite run_cons. cbn [fst snd decisions_of].
      destruct (String.eqb_spec i a) as [-> | Hia].
      * destruct (throttle_local opts a t s1 s2 Heq) as [Hd Hs].
        destruct (IH _ _ Hs) as [IHd IHs].
        rewrite Hd, IHd. split; [reflexivity | exact IHs].
      * apply IH. rewrite !throttle_other by congruence. exact Heq.
Qed.

(** The decisions for an identity are those of the run over its own
    requests alone. *)
Lemma run_own_requests (opts : ThrottlerOptions) (a : string)
    (requests : list (string * Z)) :
  forall s1 s2 : gmap string WindowCounter,
    s1 !! a = s2 !! a ->
    decisions_of a (snd (run opts requests s1)) =
      decisions_of a (snd (run opts (arrivals a (times_of a requests)) s2)) /\
    fst (run opts requests s1) !! a =
      fst (run opts (arrivals a (times_of a requests)) s2) !! a.
Proof.
  induction requests as [|[i t] rest IH]; intros s1 s2 Heq.
  - cbn. split; [reflexivity | exact Heq].
  - rewrite run_cons. cbn [times_of fst snd decisions_of].
    destruct (String.eqb_spec i a) as [-> | Hia].
    + cbn [arrivals map]. fold (arrivals a (times_of a rest)).
      rewrite run_cons. cbn [fst snd decisions_of]. rewrite String.eqb_refl.
      destruct (throttle_local opts a t s1 s2 Heq) as [Hd Hs].
      destruct (IH _ _ Hs) as [IHd IHs].
      rewrite Hd, IHd. split; [reflexivity | exact IHs].
    + apply IH. rewrite throttle_other by congruence. exact Heq.
Qed.

(** C8. For distinct identities a and b, the decisions taken for a and
    the counter and window kept for a are the same in a run over a
    request trace and in the run over that trace with every request of
    b removed, from stores that agree on a. *)
Theorem identities_do_not_interfere (opts : ThrottlerOptions) (a b : string)
    (requests : list (string * Z)) (s1 s2 : gmap string WindowCounter) :
  a <> b ->
  s1 !! a = s2 !! a ->
  decisions_of a (snd (run opts requests s1)) =
    decisions_of a (snd (run opts (without b requests) s2)) /\
  fst (run opts requests s1) !! a =
    fst (run opts (without b requests) s2) !! a.
Proof. intros Hab Heq. by apply noninterference_gen. Qed.

Lemma identities_do_not_interfere_witness :
  let opts := {| ttl := 60000; limit := 2 |} in
  decisions_of "10.0.0.1"
    (snd (run opts [("10.0.0.1", 0); ("10.0.0.2", 1); ("10.0.0.2", 2);
                    ("10.0.0.1", 3); ("10.0.0.2", 4); ("10.0.0.1", 5)] ∅)) =
  decisions_of "10.0.0.1"
    (snd (run opts [("10.0.0.1", 0); ("10.0.0.1", 3); ("10.0.0.1", 5)] ∅)).
Proof.
  intros opts.
  exact (proj1 (identities_do_not_interfere opts "10.0.0.1" "10.0.0.2"
                  [("10.0.0.1", 0); ("10.0.0.2", 1); ("10.0.0.2", 2);
                   ("10.0.0.1", 3); ("10.0.0.2", 4); ("10.0.0.1", 5)] ∅ ∅
                  ltac:(discriminate) ltac:(reflexivity))).
Defined.

Lemma ceil_div_1000 (a : Z) :
  a <= 1000 * ceil_div a 1000 < a + 1000.
Proof.
  unfold ceil_div.
  pose proof (Z.div_mod (- a) 1000 ltac:(lia)) as Hdm.
  pose proof (Z.mod_pos_bound (- a) 1000 ltac:(lia)) as Hm.
  lia.
Qed.

Lemma retry_after_bounds (a T : Z) :
  0 < a <= T ->
  0 < ceil_div a 1000 <= ceil_div T 1000 /\
  (T mod 1000 = 0 -> 1000 * ceil_div a 1000 <= T).
Proof.
  intros [Hpos Hle].
  pose proof (ceil_div_1000 a) as Ha.
  pose proof (ceil_div_1000 T) as HT.
  split; [lia|].
  intros Hmod.
  pose proof (Z.div_mod T 1000 ltac:(lia)) as Hdm.
  lia.
Qed.

Lemma decisions_of_arrivals_cons (identity : string) (d : AdmissionDecision)
    (ds : list (string * AdmissionDecision)) :
  decisions_of identity ((identity, d) :: ds) = d :: decisions_of identity ds.
Proof. cbn. rewrite String.eqb_refl. reflexivity. Qed.

(** Inside a running window the counter only grows and the decisions
    follow the request number. *)
Lemma run_inside_window (opts : ThrottlerOptions) (identity : string)
    (start : Z) (times : list Z) :
  Forall (fun t => start <= t < start + ttl opts) times ->
  forall (j : nat) (store : gmap string WindowCounter),
    store !! identity = Some {| count := Z.of_nat j; windowStart := start |} ->
    decisions_of identity (snd (run opts (arrivals identity times) store)) =
      expected_from opts start j times /\
    fst (run opts (arrivals identity times) store) !! identity =
      Some {| count := Z.of_nat (j + length times); windowStart := start |}.
Proof.
  induction 1 as [|t times Ht _ IH]; intros j store Hst.
  - cbn. rewrite Nat.add_0_r. split; [reflexivity | exact Hst].
  - cbn beta in Ht. cbn [arrivals map]. fold (arrivals identity times).
    rewrite run_cons. cbn [fst snd]. rewrite decisions_of_arrivals_cons.
    assert (Hstep : fst (throttle opts identity t store) !! identity =
                      Some {| count := Z.of_nat (S j); windowStart := start |} /\
                    snd (throttle opts identity t store) = expected opts start j t).
    { unfold throttle, expected. cbn [fst snd].
      rewrite lookup_insert_eq, Hst. cbn [default from_option id count windowStart].
      destruct (Z.leb_spec (ttl opts) (t - start)) as [Hexp|Hin]; [lia|].
      cbn [count windowStart].
      split; [do 2 f_equal; lia|].
      destruct (Z.ltb_spec (limit opts) (Z.of_nat j + 1)) as [H1|H1];
        destruct (Z.ltb_spec (Z.of_nat j) (limit opts)) as [H2|H2];
        try lia; reflexivity. }
    destruct Hstep as [Hs Hd].
    destruct (IH (S j) _ Hs) as [IHd IHs].
    rewrite Hd, IHd. cbn [expected_from length].
    split; [reflexivity|].
    rewrite IHs. do 3 f_equal. lia.
Qed.

(** The first request of a window sets the counter to one. *)
Lemma throttle_starts_window (opts : ThrottlerOptions) (identity : string)
    (now : Z) (store : gmap string WindowCounter) :
  0 < ttl opts ->
  starts_window opts identity now store ->
  fst (throttle opts identity now store) !! identity =
    Some {| count := 1; windowStart := now |} /\
  snd (throttle opts identity now store) =
    if limit opts <? 1
    then RejectTooManyRequests (ceil_div (now + ttl opts - now) 1000)
    else Admit.
Proof.
  intros Httl Hstart. unfold starts_window in Hstart.
  unfold throttle. cbn [fst snd]. rewrite lookup_insert_eq.
  destruct (store !! identity) as [wc|]; cbn [default from_option id].
  - destruct (Z.leb_spec (ttl opts) (now - windowStart wc)) as [_|Hin]; [|lia].
    split; reflexivity.
  - cbn [windowStart]. destruct (Z.leb_spec (ttl opts) (now - now)) as [Hexp|_]; [lia|].
    split; reflexivity.
Qed.

Lemma expected_from_lookup (opts : ThrottlerOptions) (start : Z)
    (times : list Z) :
  forall (j i : nat) (d : AdmissionDecision),
    expected_from opts start j times !! i = Some d <->
    exists t, times !! i = Some t /\ d = expected opts start (j + i) t.
Proof.
  induction times as [|t0 times IH]; intros j i d.
  - cbn. split; [discriminate | intros (t & Ht & _); discriminate].
  - destruct i as [|i]; cbn [expected_from lookup list_lookup].
    + rewrite Nat.add_0_r. split.
      * intros [= <-]. eauto.
      * intros (t & [= <-] & ->). reflexivity.
    + rewrite IH. replace (S j + i)%nat with (j + S i)%nat by lia. reflexivity.
Qed.

(** C3 (amended). From a store in which the identity's next request
    starts a window, in any trace in which the identity's requests all
    arrive within the window of length T (requests of other identities
    may come in between): its request number i (from 0) is admitted
    exactly when i < N; every later one is rejected with status 429 and
    Retry-After equal to
    ceil((windowStart + ttl - now) / 1000), which lies in
    (0, ceil(T/1000)] and, when T is a whole number of seconds, in
    (0, T/1000]; and, for N >= 1, a request arriving T milliseconds or
    more after the window's start is admitted again with the counter
    reset. *)
Theorem window_admits_first_N (opts : ThrottlerOptions) (identity : string)
    (store : gmap string WindowCounter) (requests : list (string * Z))
    (t1 : Z) (later : list Z) (t' : Z) :
  starts_window opts identity t1 store ->
  times_of identity requests = t1 :: later ->
  Forall (fun t => t1 <= t < t1 + ttl opts) (t1 :: later) ->
  let times := t1 :: later in
  let out := run opts requests store in
  let decisions := decisions_of identity (snd out) in
  length decisions = length times /\
  (forall i d, decisions !! i = Some d ->
     (d = Admit <-> Z.of_nat i < limit opts)) /\
  (forall i t, times !! i = Some t -> limit opts <= Z.of_nat i ->
     let r := ceil_div (t1 + ttl opts - t) 1000 in
     decisions !! i = Some (RejectTooManyRequests r) /\
     status_of (RejectTooManyRequests r) = Some 429 /\
     0 < r <= ceil_div (ttl opts) 1000 /\
     (ttl opts mod 1000 = 0 -> 1000 * r <= ttl opts)) /\
  (t1 + ttl opts <= t' -> 1 <= limit opts ->
     snd (throttle opts identity t' (fst out)) = Admit /\
     fst (throttle opts identity t' (fst out)) !! identity =
       Some {| count := 1; windowStart := t' |}).
Proof.
  intros Hstart Htimes Hall times out decisions.
  destruct (run_own_requests opts identity requests store store eq_refl)
    as [Hown_d Hown_s].
  rewrite Htimes in Hown_d, Hown_s. fold times in Hown_d, Hown_s.
  assert (Hin1 : t1 <= t1 < t1 + ttl opts) by (inversion Hall; assumption).
  assert (Hlater : Forall (fun t => t1 <= t < t1 + ttl opts) later)
    by (inversion Hall; assumption).
  assert (Httl : 0 < ttl opts) by lia.
  destruct (throttle_starts_window opts identity t1 store Httl Hstart) as [Hs1 Hd1].
  destruct (run_inside_window opts identity t1 later Hlater 1 _ Hs1) as [Hds Hfin].
  assert (Hdec : decisions = expected_from opts t1 0 times).
  { unfold decisions, out. rewrite Hown_d. unfold times.
    cbn [arrivals map]. fold (arrivals identity later).
    rewrite run_cons. cbn [snd]. rewrite decisions_of_arrivals_cons.
    rewrite Hds, Hd1. cbn [expected_from]. unfold expected at 1. change (Z.of_nat 0) with 0.
    destruct (Z.ltb_spec (limit opts) 1); destruct (Z.ltb_spec 0 (limit opts));
      try lia; reflexivity. }
  assert (Hstore : fst out !! identity =
                     Some {| count := Z.of_nat (1 + length later); windowStart := t1 |}).
  { unfold out. rewrite Hown_s. unfold times.
    cbn [arrivals map]. fold (arrivals identity later).
    rewrite run_cons. cbn [fst]. exact Hfin. }
  split; [|split; [|split]].
  - rewrite Hdec. clear. generalize 0%nat. induction times as [|t ts IH]; intros n; cbn;
      [reflexivity | rewrite IH; reflexivity].
  - intros i d Hi. rewrite Hdec in Hi.
    apply expected_from_lookup in Hi as (t & Ht & ->).
    unfold expected. cbn [Nat.add].
    destruct (Z.ltb_spec (Z.of_nat i) (limit opts)) as [Hlt|Hge].
    + split; [intros _; exact Hlt | reflexivity].
    + split; [discriminate | lia].
  - intros i t Ht Hge r.
    assert (Hwin : t1 <= t < t1 + ttl opts).
    { rewrite Forall_forall in Hall. apply Hall.
      eapply list_elem_of_lookup_2. exact Ht. }
    split.
    + rewrite Hdec. apply expected_from_lookup. exists t. split; [exact Ht|].
      unfold expected. cbn [Nat.add].
      destruct (Z.ltb_spec (Z.of_nat i) (limit opts)); [lia | reflexivity].
    + split; [reflexivity|]. apply retry_after_bounds. lia.
  - intros Hpast Hlim.
    unfold throttle. cbn [fst snd]. rewrite lookup_insert_eq, Hstore.
    cbn [default from_option id count windowStart].
    destruct (Z.leb_spec (ttl opts) (t' - t1)) as [_|Hin]; [|lia].
    cbn [count windowStart].
    destruct (Z.ltb_spec (limit opts) (0 + 1)); [lia|]. split; reflexivity.
Qed.

Lemma window_admits_first_N_witness :
  let opts := {| ttl := 60000; limit := 2 |} in
  let requests :=
    [("10.0.0.1", 0); ("10.0.0.2", 5); ("10.0.0.1", 10); ("10.0.0.1", 59001)] in
  decisions_of "10.0.0.1" (snd (run opts requests ∅)) !! 2%nat =
    Some (RejectTooManyRequests 1) /\
  snd (throttle opts "10.0.0.1" 60000 (fst (run opts requests ∅))) = Admit.
Proof.
  intros opts requests.
  destruct (window_admits_first_N opts "10.0.0.1" ∅ requests 0 [10; 59001] 60000
              ltac:(exact I)
              ltac:(reflexivity)
              ltac:(repeat constructor; cbn; lia))
    as (_ & _ & Hrej & Hagain).
  split.
  - destruct (Hrej 2%nat 59001 ltac:(reflexivity) ltac:(cbn; lia)) as [Hd _].
    exact Hd.
  - destruct (Hagain ltac:(cbn; lia) ltac:(cbn; lia)) as [Ha _]. exact Ha.
Defined.

(** C3 as stated fails when the window is not a whole number of
    seconds: with ttl = 1500 ms and limit = 1 the second request of the
    window is rejected with Retry-After = ceil(1500 / 1000) = 2 seconds,
    which is more than 1500 / 1000. *)
Lemma retry_after_exceeds_window :
  let opts := {| ttl := 1500; limit := 1 |} in
  decisions_of "10.0.0.1" (snd (run opts (arrivals "10.0.0.1" [0; 0]) ∅)) =
    [Admit; RejectTooManyRequests 2] /\
  2 = ceil_div (0 + ttl opts - 0) 1000 /\
  ~ (1000 * 2 <= ttl opts).
Proof.
  cbv zeta. split; [vm_compute; reflexivity|]. split; [reflexivity|].
  cbn. lia.
Qed.

End RateLimiter.

(* ================================================================== *)
(** * Further properties of formatBytes                                *)
(* ================================================================== *)

Section FormatBytesMore.
Import BodySize.

Lemma pow1024_succ (i : Z) : 0 <= i -> 1024 ^ (i + 1) = 1024 * 1024 ^ i.
Proof. intros Hi. rewrite Z.pow_add_r by lia. lia. Qed.

Lemma pow1024_pos (i : Z) : 0 <= i -> 0 < 1024 ^ i.
Proof. intros Hi. apply Z.pow_pos_nonneg; lia. Qed.

(** X5. A whole number n of units, 1 <= n < 1024, is printed as that number
    with that unit: 500 * 1024 as "500 KB", 5 * 1024^2 as "5 MB". *)
Theorem formatBytes_whole_units (n i : Z) :
  1 <= n < 1024 ->
  0 <= i ->
  formatBytes (n * 1024 ^ i) = number_to_string n +:+ " " +:+ unit_name i.
Proof.
  intros Hn Hi.
  pose proof (pow1024_pos i Hi) as Hd.
  assert (Hpos : 0 < n * 1024 ^ i) by nia.
  assert (Hidx : unit_index (n * 1024 ^ i) = i).
  { apply (floor_log_unique (n * 1024 ^ i)).
    - apply unit_index_nonneg.
    - exact Hi.
    - apply unit_index_floor_log. exact Hpos.
    - rewrite pow1024_succ by exact Hi. nia. }
  rewrite formatBytes_pos by exact Hpos. rewrite Hidx.
  assert (Hq : round_div (n * 1024 ^ i) (1024 ^ i) = n).
  { unfold round_div. symmetry.
    apply (Z.div_unique _ _ n (1024 ^ i)); lia. }
  rewrite Hq. reflexivity.
Qed.

Lemma formatBytes_whole_units_witness :
  formatBytes (500 * 1024) = "500 KB".
Proof.
  exact (formatBytes_whole_units 500 1 ltac:(lia) ltac:(lia)).
Defined.

(** X6. For a positive byte count below 1024^4 the printed number lies
    between 1 and 1024.  Below 1024 bytes it is the byte count itself;
    1024 is printed exactly for the counts in the upper half-unit below
    the next power of 1024, which are not promoted to the next unit
    (1048575 gives "1024 KB"). *)
Theorem formatBytes_number_range (bytes : Z) :
  0 < bytes < 1024 ^ 4 ->
  exists (q : Z) (u : string),
    sizes !! Z.to_nat (unit_index bytes) = Some u /\
    formatBytes bytes = number_to_string q +:+ " " +:+ u /\
    1 <= q <= 1024 /\
    (bytes < 1024 -> q = bytes /\ u = "Bytes") /\
    (q = 1024 <-> 2047 * 1024 ^ unit_index bytes <= 2 * bytes).
Proof.
  intros [Hpos Hsmall].
  pose proof (unit_index_nonneg bytes) as Hi.
  pose proof (unit_index_small bytes Hpos Hsmall) as Hi4.
  pose proof (unit_index_floor_log bytes Hpos) as [Hlo Hhi].
  rewrite pow1024_succ in Hhi by exact Hi.
  pose proof (pow1024_pos _ Hi) as Hd.
  assert (Hunit : sizes !! Z.to_nat (unit_index bytes) =
                    Some (unit_name (unit_index bytes))).
  { unfold unit_name.
    assert (Hcase : unit_index bytes = 0 \/ unit_index bytes = 1 \/
                    unit_index bytes = 2 \/ unit_index bytes = 3) by lia.
    destruct Hcase as [-> | [-> | [-> | ->]]]; reflexivity. }
  assert (Hfirst : bytes < 1024 -> unit_index bytes = 0).
  { intros Hlt. apply (floor_log_unique bytes); [exact Hi | lia | | cbn; lia].
    apply unit_index_floor_log. exact Hpos. }
  set (d := 1024 ^ unit_index bytes) in *.
  pose proof (round_div_nearest bytes d Hd) as [Hq1 Hq2].
  exists (round_div bytes d), (unit_name (unit_index bytes)).
  split; [exact Hunit|].
  split; [apply formatBytes_pos; exact Hpos|].
  split; [nia|]. split.
  - intros Hlt. specialize (Hfirst Hlt).
    unfold d in *. rewrite Hfirst in *.
    change (1024 ^ 0) with 1 in *. split; [lia | reflexivity].
  - split; intros H; nia.
Qed.

Lemma formatBytes_number_range_witness :
  formatBytes 1048575 = "1024 KB".
Proof.
  destruct (formatBytes_number_range 1048575 ltac:(split; reflexivity))
    as (q & u & Hu & Hfmt & _ & _ & Hmax).
  assert (q = 1024) as -> by (apply Hmax; vm_compute; discriminate).
  injection Hu as <-.
  exact Hfmt.
Defined.

End FormatBytesMore.

(* ================================================================== *)
(** * Further properties of the body-size guard                        *)
(* ================================================================== *)

Section BodySizeGuardMore.
Import BodySize.










(** X4. A negative configured limit rejects every ['data'] event, an empty
    chunk included, and describes the limit as "NaN undefined". *)
Theorem negative_limit_rejects_every_chunk
    (L : Z) (m st : string) (chunk : list byte) :
  L < 0 ->
  exists w,
    emit (EmitData chunk) (use {| maxSize := Some L |} (incoming m st)) =
      (w, Some (PayloadTooLargeException
                  "Request body too large. Maximum size is NaN undefined" st)) /\
    req_paused w = true.
Proof.
  intros HL.
  assert (HL0 : L <> 0) by lia.
  pose proof (use_attached {| maxSize := Some L |} m st) as Hatt.
  rewrite (effective_limit_configured L HL0) in Hatt.
  rewrite (emit_data_attached L) by exact Hatt.
  rewrite use_incoming. cbn [call_listener].
  change (receivedBytes (set_receivedBytes ?n _)) with n. cbn [receivedBytes].
  destruct (Z.ltb_spec L (0 + Z.of_nat (length chunk))) as [_|Hok]; [|lia].
  assert (Hmsg : too_large_message L =
                 "Request body too large. Maximum size is NaN undefined").
  { unfold too_large_message, formatBytes.
    destruct (Z.eqb_spec L 0); [lia|].
    destruct (Z.ltb_spec L 0); [reflexivity | lia]. }
  rewrite Hmsg. eexists. split; reflexivity.
Qed.

Lemma negative_limit_rejects_every_chunk_witness :
  exists w exc,
    emit (EmitData []) (use {| maxSize := Some (-1) |} (incoming "POST" "")) =
      (w, Some exc).
Proof.
  destruct (negative_limit_rejects_every_chunk (-1) "POST" "" [] ltac:(lia))
    as (w & He & _).
  exists w. eexists. exact He.
Defined.

Lemma data_bytes_nonneg (evs : list Event) : 0 <= data_bytes evs.
Proof. induction evs as [|[c| |e] evs IH]; cbn [data_bytes]; lia. Qed.

Lemma deliver_quiet (L : Z) (evs : list Event) :
  forall w w' : World,
    attached L w ->
    req_paused w = false ->
    deliver evs w = (w', None) ->
    attached L w' /\
    req_paused w' = false /\
    next_calls w' = next_calls w ++ forwarded evs /\
    receivedBytes w' = receivedBytes w + data_bytes evs /\
    (0 < data_bytes evs \/ receivedBytes w <= L -> receivedBytes w' <= L).
Proof.
  induction evs as [|ev evs IH]; intros w w' Hatt Hflow Hd.
  - injection Hd as <-. cbn. rewrite app_nil_r, Z.add_0_r.
    repeat split; try assumption. intros [H|H]; lia.
  - cbn [deliver] in Hd. rewrite Hflow in Hd. cbn [andb] in Hd.
    pose proof (data_bytes_nonneg evs) as Hnn.
    destruct ev as [chunk| |err].
    + rewrite (emit_data_attached L) in Hd by exact Hatt.
      cbn [call_listener] in Hd.
      change (receivedBytes (set_receivedBytes ?n _)) with n in Hd.
      destruct (Z.ltb_spec L (receivedBytes w + Z.of_nat (length chunk))) as [Hgt|Hok];
        [discriminate|].
      apply IH in Hd; [|exact Hatt|exact Hflow].
      destruct Hd as (Ha & Hp & Hn & Hr & Hb).
      cbn [forwarded data_bytes]. cbn in Hn, Hr, Hb.
      repeat split; try assumption; try lia.
    + rewrite (emit_end_attached L) in Hd by exact Hatt.
      apply IH in Hd; [|exact Hatt|exact Hflow].
      destruct Hd as (Ha & Hp & Hn & Hr & Hb).
      cbn [forwarded data_bytes]. cbn in Hn, Hr, Hb.
      repeat split; try assumption.
      rewrite Hn, <- app_assoc. reflexivity.
    + rewrite (emit_error_attached L) in Hd by exact Hatt.
      apply IH in Hd; [|exact Hatt|exact Hflow].
      destruct Hd as (Ha & Hp & Hn & Hr & Hb).
      cbn [forwarded data_bytes]. cbn in Hn, Hr, Hb.
      repeat split; try assumption.
      rewrite Hn, <- app_assoc. reflexivity.
Qed.

(** X3. A delivery that raises nothing has consumed every event: all bytes
    are counted, the stream still flows, and [next] has been called
    once for each ['end'] and each ['error'] event, in their order, an
    error being passed on as it came (after the one call [use] makes for
    GET, HEAD and DELETE); if any byte arrived, the total is within the
    limit. *)
Theorem quiet_delivery_trace
    (this : BodySizeLimitMiddleware) (m st : string)
    (evs : list Event) (w : World) :
  deliver evs (use this (incoming m st)) = (w, None) ->
  next_calls w =
    (if bodyless_method m then [None] else []) ++ forwarded evs /\
  receivedBytes w = data_bytes evs /\
  req_paused w = false /\
  (0 < data_bytes evs -> data_bytes evs <= effective_limit this).
Proof.
  intros Hd.
  pose proof (use_attached this m st) as Hatt.
  destruct (deliver_quiet (effective_limit this) evs _ _ Hatt
              ltac:(rewrite use_incoming; reflexivity) Hd)
    as (_ & Hp & Hn & Hr & Hb).
  rewrite use_incoming in Hn, Hr, Hb. cbn in Hn, Hr, Hb.
  split; [exact Hn|]. split; [lia|]. split; [exact Hp|]. lia.
Qed.

Lemma quiet_delivery_trace_witness :
  let lost := PlainError {| err_message := "aborted"; err_stack := "" |} in
  next_calls
    (fst (deliver [EmitData [x00]; EmitError lost; EmitEnd]
            (use {| maxSize := Some 3 |} (incoming "PUT" "")))) =
  [Some lost; None].
Proof.
  intros lost.
  exact (proj1 (quiet_delivery_trace {| maxSize := Some 3 |} "PUT" ""
                  [EmitData [x00]; EmitError lost; EmitEnd] _ eq_refl)).
Defined.

End BodySizeGuardMore.

(* ================================================================== *)
(** * Further properties of the exception filter                       *)
(* ================================================================== *)

Section ExceptionFilterMore.
Import BodySize Filter.

Lemma join_strings (sep : string) (msgs : list string) :
  js_join sep (map JsString msgs) = String.concat sep msgs.
Proof.
  unfold js_join.
  induction msgs as [|m1 [|m2 ms] IH]; [reflexivity | reflexivity |].
  cbn [map join_with String.concat] in *.
  rewrite IH. reflexivity.
Qed.

(** X7. When the response of an HttpException carries its messages as an
    array of strings (as the validation pipe does), the message sent to
    the client is these strings separated by ", ", under the status of
    the exception. *)
Theorem message_array_is_joined (e : ErrorObj) (status : Z)
    (fields : list (string * JsValue)) (msgs : list string)
    (request : HttpRequest) (timestamp : string) :
  js_get "message" fields = Some (JsArray (map JsString msgs)) ->
  let r := fst (catch (HttpException e status (JsObject fields)) request timestamp) in
  js_get "message" (res_body r) = Some (JsString (String.concat ", " msgs)) /\
  res_status r = status.
Proof.
  intros Hmsg r. unfold r, catch. cbn [fst res_body res_status].
  cbn [exception_response exception_status extract_message].
  rewrite Hmsg, join_strings. split; reflexivity.
Qed.

Lemma message_array_is_joined_witness :
  js_get "message"
    (res_body (fst (catch
       (HttpException {| err_message := "Bad Request Exception"; err_stack := "" |} 400
          (JsObject [("message", JsArray [JsString "email must be an email";
                                          JsString "password is too short"]);
                     ("error", JsString "Bad Request");
                     ("statusCode", JsNumber 400)]))
       {| url := "/api/users"; method := "POST" |} ""))) =
  Some (JsString "email must be an email, password is too short").
Proof.
  exact (proj1 (message_array_is_joined
                  {| err_message := "Bad Request Exception"; err_stack := "" |} 400
                  [("message", JsArray [JsString "email must be an email";
                                        JsString "password is too short"]);
                   ("error", JsString "Bad Request");
                   ("statusCode", JsNumber 400)]
                  ["email must be an email"; "password is too short"]
                  {| url := "/api/users"; method := "POST" |} ""
                  ltac:(reflexivity))).
Defined.



End ExceptionFilterMore.

(* ================================================================== *)
(** * Splitting and joining strings                                    *)
(* ================================================================== *)

Section Strings.
Import Str.

Lemma append_assoc (a b c : string) : (a +:+ b) +:+ c = a +:+ (b +:+ c).
Proof.
  induction a as [|x a IH]; [reflexivity|].
  change (String x ((a +:+ b) +:+ c) = String x (a +:+ (b +:+ c))).
  f_equal. exact IH.
Qed.

Lemma append_empty_r (a : string) : a +:+ "" = a.
Proof.
  induction a as [|x a IH]; [reflexivity|].
  change (String x (a +:+ "") = String x a). f_equal. exact IH.
Qed.

Lemma split_on_cons (sep : ascii) (s : string) :
  exists piece pieces, split_on sep s = piece :: pieces.
Proof.
  destruct s as [|c s]; cbn; [eauto|].
  destruct (Ascii.eqb c sep); [eauto|].
  destruct (split_on sep s); eauto.
Qed.

(** Joining the pieces of a split gives the string back. *)
Lemma join_split (sep : ascii) (s : string) :
  join sep (split_on sep s) = s.
Proof.
  unfold join. induction s as [|c s IH]; [reflexivity|].
  cbn [split_on].
  destruct (split_on_cons sep s) as (piece & pieces & Hs).
  rewrite Hs in *.
  destruct (Ascii.eqb_spec c sep) as [-> | Hne].
  - change (String sep (String.concat (String sep "") (piece :: pieces)) = String sep s).
    f_equal. exact IH.
  - destruct pieces as [|p ps].
    + change (String c piece = String c s). f_equal. exact IH.
    + change (String c (String.concat (String sep "") (piece :: p :: ps)) = String c s).
      f_equal. exact IH.
Qed.

(** A string without the separator is its own single piece. *)
Lemma split_on_absent (sep : ascii) (s : string) :
  contains sep s = false -> split_on sep s = [s].
Proof.
  induction s as [|c s IH]; cbn; [reflexivity|].
  destruct (Ascii.eqb c sep); [discriminate|]. cbn.
  intros H. rewrite (IH H). reflexivity.
Qed.

(** A string with the separator has at least two pieces. *)
Lemma split_on_present (sep : ascii) (s : string) :
  contains sep s = true ->
  exists p1 p2 ps, split_on sep s = p1 :: p2 :: ps.
Proof.
  induction s as [|c s IH]; cbn; [discriminate|].
  destruct (Ascii.eqb c sep); cbn.
  - intros _. destruct (split_on_cons sep s) as (p & ps & ->). eauto.
  - intros H. destruct (IH H) as (p1 & p2 & ps & ->). eauto.
Qed.

End Strings.

(* ================================================================== *)
(** * Properties of the name handling of UserService                   *)
(* ================================================================== *)

Section UserNames.
Import Str Users.

(** X11. The name a user is created with comes back from the stored first
    and last name: re-joined they are the name itself when it contains a
    space, and the name followed by one space otherwise, so the name in
    the response is the [trim] of that; without a name it is the [trim]
    of a single space. *)
Theorem name_survives_split (trim : string -> string) (name : string) :
  firstName_of (Some name) +:+ " " +:+ lastName_of (Some name) =
    (if contains space name then name else name +:+ " ") /\
  response_name trim (firstName_of (Some name)) (lastName_of (Some name)) =
    trim (if contains space name then name else name +:+ " ") /\
  response_name trim (firstName_of None) (lastName_of None) = trim " ".
Proof.
  assert (Hjoin : firstName_of (Some name) +:+ " " +:+ lastName_of (Some name) =
                  (if contains space name then name else name +:+ " ")).
  { unfold firstName_of, lastName_of. cbn [or_empty].
    destruct (contains space name) eqn:Hc.
    - destruct (split_on_present space name Hc) as (p1 & p2 & ps & Hs).
      pose proof (join_split space name) as Hround.
      rewrite Hs in *. cbn [head tail or_empty].
      exact Hround.
    - rewrite (split_on_absent space name Hc). reflexivity. }
  split; [exact Hjoin|]. split; [|reflexivity].
  unfold response_name. change (String space "") with " ". rewrite Hjoin. reflexivity.
Qed.

End UserNames.

(* ================================================================== *)
(** * Properties of the schema merge                                   *)
(* ================================================================== *)

Section SchemaMerge.
Import Str Merge.

Variable trim : string -> string.
Variable sort : list string -> list string.

Local Abbreviation is_gen := (is_generator trim).
Local Abbreviation is_ds := (is_datasource trim).
Local Abbreviation plain := (plain_line trim).

(** No line opens both a generator and a datasource. *)
Lemma generator_not_datasource (line : string) :
  is_gen line = true -> is_ds line = false.
Proof.
  unfold is_generator, is_datasource, startsWith.
  destruct (trim line) as [|c t]; [discriminate|].
  cbn [String.prefix].
  destruct (ascii_dec "g" c) as [<-|]; [reflexivity | discriminate].
Qed.

Lemma filter_lines_cons (line : string) (rest : list string) (flags : bool * bool) :
  filter_lines trim (line :: rest) flags =
    (if fst (keep_line trim line flags)
     then line :: fst (filter_lines trim rest (snd (keep_line trim line flags)))
     else fst (filter_lines trim rest (snd (keep_line trim line flags))),
     snd (filter_lines trim rest (snd (keep_line trim line flags)))).
Proof.
  cbn [filter_lines].
  destruct (keep_line trim line flags) as [keep flags1]. cbn [fst snd].
  destruct (filter_lines trim rest flags1) as [kept flags2]. reflexivity.
Qed.

Lemma filter_lines_app (a b : list string) (flags : bool * bool) :
  filter_lines trim (a ++ b) flags =
    (fst (filter_lines trim a flags) ++
       fst (filter_lines trim b (snd (filter_lines trim a flags))),
     snd (filter_lines trim b (snd (filter_lines trim a flags)))).
Proof.
  revert flags. induction a as [|line a IH]; intros flags.
  - cbn. destruct (filter_lines trim b flags); reflexivity.
  - cbn [app]. rewrite !filter_lines_cons, IH. cbn [fst snd].
    destruct (fst (keep_line trim line flags)); reflexivity.
Qed.

(** What the filter keeps of a list of lines, from any state of the
    two flags: of the generator lines the first one unless one was seen
    before, likewise of the datasource lines, and every other line. *)
Lemma filter_lines_spec (lines : list string) :
  forall hasGen hasDs : bool,
    let kept := fst (filter_lines trim lines (hasGen, hasDs)) in
    length (List.filter is_gen kept) =
      (if hasGen then 0 else Nat.min 1 (length (List.filter is_gen lines)))%nat /\
    length (List.filter is_ds kept) =
      (if hasDs then 0 else Nat.min 1 (length (List.filter is_ds lines)))%nat /\
    List.filter plain kept = List.filter plain lines /\
    (forallb plain lines = true -> kept = lines).
Proof.
  induction lines as [|line rest IH]; intros hasGen hasDs.
  - cbn. destruct hasGen, hasDs; repeat split; reflexivity.
  - cbv zeta. rewrite filter_lines_cons. cbn [List.filter forallb].
    assert (Hpl : plain line = negb (is_gen line) && negb (is_ds line))
      by reflexivity.
    rewrite Hpl. unfold keep_line.
    destruct (is_gen line) eqn:Hg.
    + rewrite (generator_not_datasource line Hg). cbn [negb andb].
      destruct (IH true hasDs) as (IHg & IHd & IHp & _). cbv zeta in *.
      destruct hasGen; cbn [andb fst snd].
      * repeat split; try assumption. discriminate.
      * cbn [List.filter].
        rewrite ?Hpl, ?Hg, ?(generator_not_datasource line Hg).
        cbn [negb andb length].
        rewrite IHg.
        repeat split; try assumption; try discriminate.
        all: destruct (length (List.filter is_gen rest)); reflexivity.
    + cbn [andb negb].
      destruct (is_ds line) eqn:Hd; cbn [andb negb].
      * destruct (IH hasGen true) as (IHg & IHd & IHp & _). cbv zeta in *.
        destruct hasDs; cbn [fst snd].
        -- repeat split; try assumption. discriminate.
        -- cbn [List.filter]. rewrite ?Hpl, ?Hg, ?Hd. cbn [negb andb length].
           rewrite IHd.
           repeat split; try assumption; try discriminate.
           all: destruct (length (List.filter is_ds rest)); reflexivity.
      * cbn [fst snd].
        destruct (IH hasGen hasDs) as (IHg & IHd & IHp & IHall). cbv zeta in *.
        cbn [List.filter]. rewrite ?Hpl, ?Hg, ?Hd. cbn [negb andb].
        rewrite IHp. repeat split; try assumption.
        intros Hall. rewrite (IHall Hall). reflexivity.
Qed.

Lemma kept_lines_concat (dir : Partials) (files : list string) :
  forall flags : bool * bool,
    concat (kept_lines trim dir files flags) =
      fst (filter_lines trim (read_lines dir files) flags).
Proof.
  unfold read_lines. induction files as [|file files IH]; intros flags.
  - reflexivity.
  - cbn [kept_lines map concat]. rewrite filter_lines_app. cbn [fst].
    destruct (filter_lines trim (split_on newline (readFileSync dir file)) flags)
      as [kept flags1].
    cbn [concat fst snd]. rewrite IH. reflexivity.
Qed.

Lemma kept_lines_length (dir : Partials) (files : list string) :
  forall flags : bool * bool,
    length (kept_lines trim dir files flags) = length files.
Proof.
  induction files as [|file files IH]; intros flags; [reflexivity|].
  cbn [kept_lines].
  destruct (filter_lines trim (split_on newline (readFileSync dir file)) flags).
  cbn [length]. rewrite IH. reflexivity.
Qed.

(** The loop builds the blocks of the files one after the other. *)
Lemma merge_loop_render (dir : Partials) (files : list string) :
  forall st : MergeState,
    mergedContent (fold_left (merge_file trim dir) files st) =
      mergedContent st +:+
      render files (kept_lines trim dir files (hasGenerator st, hasDatasource st)).
Proof.
  induction files as [|file files IH]; intros st.
  - cbn. rewrite append_empty_r. reflexivity.
  - cbn [fold_left kept_lines]. rewrite IH. unfold merge_file.
    destruct (filter_lines trim (split_on newline (readFileSync dir file))
                (hasGenerator st, hasDatasource st)) as [kept [g d]].
    cbn [mergedContent hasGenerator hasDatasource render].
    unfold block, header. rewrite !append_assoc. reflexivity.
Qed.

Lemma mergeSchemas_render (dir : Partials) :
  mergeSchemas trim sort dir =
    render (partial_files sort dir)
      (kept_lines trim dir (partial_files sort dir) (false, false)).
Proof. unfold mergeSchemas. rewrite merge_loop_render. reflexivity. Qed.

(** X9. The merged schema is the sequence of the files' blocks, and over
    all of them the filter keeps exactly one line opening a generator
    if the partial files contain any, and none otherwise; the same holds
    for the lines opening a datasource. *)
Theorem merged_opens_generator_and_datasource_once (dir : Partials) :
  let files := partial_files sort dir in
  let kept := kept_lines trim dir files (false, false) in
  mergeSchemas trim sort dir = render files kept /\
  length kept = length files /\
  length (List.filter is_gen (concat kept)) =
    Nat.min 1 (length (List.filter is_gen (read_lines dir files))) /\
  length (List.filter is_ds (concat kept)) =
    Nat.min 1 (length (List.filter is_ds (read_lines dir files))).
Proof.
  intros files kept.
  split; [apply mergeSchemas_render|].
  split; [apply kept_lines_length|].
  unfold kept. rewrite kept_lines_concat.
  destruct (filter_lines_spec (read_lines dir files) false false) as (Hg & Hd & _).
  split; assumption.
Qed.

Lemma kept_lines_plain (dir : Partials) (files : list string) :
  forall flags : bool * bool,
    Forall2
      (fun file lines =>
         List.filter plain lines =
           List.filter plain (split_on newline (readFileSync dir file)) /\
         (forallb plain (split_on newline (readFileSync dir file)) = true ->
          block file lines =
            header file +:+ readFileSync dir file +:+
            String newline (String newline "")))
      files (kept_lines trim dir files flags).
Proof.
  induction files as [|file files IH]; intros [g d]; [constructor|].
  cbn [kept_lines].
  destruct (filter_lines_spec (split_on newline (readFileSync dir file)) g d)
    as (_ & _ & Hp & Hall).
  destruct (filter_lines trim (split_on newline (readFileSync dir file)) (g, d))
    as [kept flags1].
  cbn [fst] in *. constructor; [|apply IH].
  split; [exact Hp|].
  intros Hplain. rewrite (Hall Hplain).
  unfold block. rewrite join_split. reflexivity.
Qed.

(** X10. Lines that open neither a generator nor a datasource are never
    dropped: in the block of every file they are the file's own, in
    order, so only the opening line of a repeated generator or
    datasource goes and the rest of its block stays; and a file made of
    such lines only appears verbatim after its header, followed by an
    empty line. *)
Theorem merged_keeps_plain_lines (dir : Partials) :
  let files := partial_files sort dir in
  let kept := kept_lines trim dir files (false, false) in
  mergeSchemas trim sort dir = render files kept /\
  Forall2
    (fun file lines =>
       List.filter plain lines =
         List.filter plain (split_on newline (readFileSync dir file)) /\
       (forallb plain (split_on newline (readFileSync dir file)) = true ->
        block file lines =
          header file +:+ readFileSync dir file +:+
          String newline (String newline "")))
    files kept.
Proof.
  intros files kept. split; [apply mergeSchemas_render | apply kept_lines_plain].
Qed.

End SchemaMerge.

(* ================================================================== *)
(** * Properties of UserService                                        *)
(* ================================================================== *)

Section UserServiceProps.
Import Users Filter.

Variable DB : Type.
Variable findById : string -> DB -> (Thrown + option User) * DB.
Variable findByEmail : string -> DB -> (Thrown + option User) * DB.
Variable countByEmail : string -> DB -> (Thrown + Z) * DB.
Variable createUser : UserCreateInput -> DB -> (Thrown + User) * DB.
Variable updateUser : string -> UserUpdateInput -> DB -> (Thrown + User) * DB.
Variable deleteUser : string -> DB -> (Thrown + User) * DB.
Variable bcrypt_hash : string -> Z -> string.
Variable trim : string -> string.
Variable stack : string.

(** X12. Every operation addressed by id fails on an unknown id in the same
    way: [findOne], [update], [remove], [softRemove] and
    [updatePassword] throw the NotFoundException "User with ID <id> not
    found" straight after the lookup, with the database as the lookup
    left it, whatever the writing calls of the model would do; the
    filter answers it with status 404, that message and the error
    "Not Found". *)
Theorem unknown_id_is_not_found
    (i : string) (dto : UpdateUserDto) (newPassword : string) (db db' : DB)
    (request : HttpRequest) (timestamp : string) :
  findById i db = (inr None, db') ->
  let missing := NotFoundException ("User with ID " +:+ i +:+ " not found") stack in
  findOne DB findById trim stack i db = (inl missing, db') /\
  update DB findById countByEmail updateUser bcrypt_hash trim stack i dto db =
    (inl missing, db') /\
  remove DB findById deleteUser stack i db = (inl missing, db') /\
  softRemove DB findById updateUser trim stack i db = (inl missing, db') /\
  updatePassword DB findById updateUser bcrypt_hash stack i newPassword db =
    (inl missing, db') /\
  fst (catch missing request timestamp) =
    {| res_status := 404;
       res_body :=
         [("statusCode", JsNumber 404);
          ("timestamp", JsString timestamp);
          ("path", JsString (url request));
          ("method", JsString (method request));
          ("message", JsString ("User with ID " +:+ i +:+ " not found"));
          ("error", JsString "Not Found")] |}.
Proof.
  intros Hfind missing.
  unfold findOne, update, remove, softRemove, updatePassword, await.
  rewrite Hfind. repeat split; reflexivity.
Qed.


(** X14. An update that repeats the user's own email is not a conflict: the
    model is not asked to count the email, and the update is written
    with that email (name and password being absent from the request),
    its outcome being the outcome of the service. *)
Theorem own_email_is_no_conflict
    (i : string) (dto : UpdateUserDto) (existing : User) (db db1 : DB) :
  findById i db = (inr (Some existing), db1) ->
  email existing <> "" ->
  update_email dto = Some (email existing) ->
  update_name dto = None ->
  update_password dto = None ->
  update DB findById countByEmail updateUser bcrypt_hash trim stack i dto db =
    match updateUser i
            {| set_email := Some (email existing); set_firstName := None;
               set_lastName := None; set_password := None;
               set_isActive := None |} db1 with
    | (inl exc, db2) => (inl exc, db2)
    | (inr user, db2) => (inr (toResponseDto trim user), db2)
    end.
Proof.
  intros Hfind Hne He Hn Hp.
  unfold update, await, with_password, with_name, with_email, no_change.
  rewrite Hfind, He, Hn, Hp. cbn [truthy or_empty].
  rewrite String.eqb_refl.
  destruct (String.eqb_spec (email existing) "") as [|_]; [contradiction|].
  cbn [negb andb]. unfold ret. cbn.
  destruct (updateUser i _ db1) as [[exc|user] db2]; reflexivity.
Qed.

End UserServiceProps.

Lemma unknown_id_is_not_found_witness :
  Users.findOne unit (fun _ db => (inr None, db)) (fun s => s) "" "42" tt =
    (inl (Users.NotFoundException "User with ID 42 not found" ""), tt).
Proof.
  exact (proj1 (unknown_id_is_not_found unit (fun _ db => (inr None, db))
                  (fun _ db => (inr 0, db))
                  (fun _ _ db => (inl (NonError JsNull), db))
                  (fun _ db => (inl (NonError JsNull), db))
                  (fun p _ => p) (fun s => s) ""
                  "42"
                  {| Users.update_email := None; Users.update_name := None;
                     Users.update_password := None |}
                  "" tt tt
                  {| Filter.url := "/api/users/42"; Filter.method := "GET" |} ""
                  eq_refl)).
Defined.


Lemma own_email_is_no_conflict_witness :
  let me :=
    {| Users.id := "1"; Users.email := "a@example.com"; Users.password := "";
       Users.firstName := "A"; Users.lastName := ""; Users.isActive := true;
       Users.createdAt := ""; Users.updatedAt := "" |} in
  Users.update unit (fun _ db => (inr (Some me), db)) (fun _ db => (inr 1, db))
    (fun _ _ db => (inr me, db)) (fun p _ => p) (fun s => s) "" "1"
    {| Users.update_email := Some "a@example.com"; Users.update_name := None;
       Users.update_password := None |} tt =
  (inr (Users.toResponseDto (fun s => s) me), tt).
Proof.
  intros me.
  exact (own_email_is_no_conflict unit (fun _ db => (inr (Some me), db))
           (fun _ db => (inr 1, db)) (fun _ _ db => (inr me, db))
           (fun p _ => p) (fun s => s) "" "1"
           {| Users.update_email := Some "a@example.com"; Users.update_name := None;
              Users.update_password := None |} me tt tt
           eq_refl ltac:(discriminate) eq_refl eq_refl eq_refl).
Defined.
